(** * CreateManager: the "create project" state machine of the studio

    Shallow embedding of [apps/studio/src/lib/projects/create.ts].

    The class lives in a single-threaded event loop.  Everything it can
    touch is gathered in one record, [World]: the manager's own fields,
    the owning [ProjectsManager], the pending [setTimeout] timers, the
    listeners registered on the progress channel, the backend requests
    that are still awaited, and a log of the outward effects (analytics,
    IPC requests, suggestion generation, dev-server start).

    An [async] method is split at its single [await]: the part before it
    runs when the method is called, the part after it runs when the
    backend replies.  Timers, notifications and other calls may run in
    between; [step] and [run_events] give the event loop. *)

From Stdlib Require Import ZArith List String Bool Lia.
Import ListNotations.

Local Open Scope string_scope.
Local Open Scope list_scope.
Local Open Scope Z_scope.

(* ================================================================== *)
(** ** Data model *)

(** [enum CreateState] (create.ts, lines 8-13). *)
Inductive CreateState : Type :=
| PROMPT
| IMPORT
| CREATE_LOADING
| ERROR.

Definition CreateState_eqb (a b : CreateState) : bool :=
  match a, b with
  | PROMPT, PROMPT => true
  | IMPORT, IMPORT => true
  | CREATE_LOADING, CREATE_LOADING => true
  | ERROR, ERROR => true
  | _, _ => false
  end.

(** [SLOW_CREATE_MESSAGES] (lines 15-21): pairs [(time, message)], the
    time in milliseconds. *)
Definition SLOW_CREATE_MESSAGES : list (Z * string) :=
  [ (15000, "Finalizing layout...");
    (30000, "Drafting copy...");
    (45000, "Finalizing design...");
    (60000, "Completing setup...");
    (75000, "Starting project...") ].

(** [Math.max(...SLOW_CREATE_MESSAGES.map((m) => m.time))] (line 52), on
    the non-empty table of positive times. *)
Definition max_time (l : list (Z * string)) : Z :=
  fold_right (fun m acc => Z.max (fst m) acc) 0 l.

(** The names of [MainChannels] this file uses. *)
Inductive MainChannels : Type :=
| CREATE_NEW_BLANK_PROJECT
| CREATE_NEW_PROJECT_PROMPT
| CANCEL_CREATE_NEW_PROJECT_PROMPT
| CREATE_NEW_PROJECT_PROMPT_CALLBACK.

(** [ImageMessageContext] is opaque to this file: images are only passed
    on.  An image is represented by its content string. *)
Definition ImageMessageContext : Type := string.

(** Modelled from the spec: the type [CreateProjectResponse] of
    [@onlook/models] is not part of the sources; section 6 gives its
    shape as [{success, response?: {projectPath, content?}, error?}].
    [resp_error] is its [error] field. *)
Record CreateProjectPayload : Type := {
  projectPath : string;
  content : option string
}.

Record CreateProjectResponse : Type := {
  success : bool;
  response : option CreateProjectPayload;
  resp_error : option string
}.

(** How an awaited request ends: with the value it resolves to, or
    refused, its promise rejected with a reason. *)
Inductive Awaited (A : Type) : Type :=
| Resolved (value : A)
| Refused (reason : string).

Arguments Resolved {A} value.
Arguments Refused {A} reason.

(** A value an ignored backend reply may carry. *)
Inductive JsValue : Type :=
| JsUndefined
| JsNull
| JsBool (b : bool)
| JsNumber (n : Z)
| JsString (s : string).

(** JavaScript truthiness of a [string | undefined]. *)
Definition truthy (s : option string) : bool :=
  match s with
  | Some EmptyString => false
  | Some _ => true
  | None => false
  end.

(** [a || b] on a [string | undefined] left operand. *)
Definition or_else (a : option string) (b : string) : string :=
  match a with
  | Some EmptyString => b
  | Some s => s
  | None => b
  end.

(** The commands object built by [createProject] (lines 146-150). *)
Record ProjectCommands : Type := {
  install : string;
  run : string;
  build : string
}.

(** Modelled from the spec: the project record.
    [ProjectsManager.createProject] is not part of the sources.  Section 6
    calls it a project-record factory
    [create project(name, url, path, commands)] and section 4.1 says the
    record is bound to the returned path with the given defaults, so the
    record keeps the four arguments. *)
Record Project : Type := {
  name : string;
  url : string;
  path : string;
  commands : ProjectCommands
}.

(** Modelled from the spec: [ProjectsManager.createProject], the factory
    of section 6; it returns the record of its four arguments. *)
Definition ProjectsManager_createProject
  (projectName projectUrl projectPath0 : string) (projectCommands : ProjectCommands)
  : Project :=
  {| name := projectName; url := projectUrl; path := projectPath0;
     commands := projectCommands |}.

(** Modelled from the spec: [ProjectTabs] is not part of the sources; the
    only tab this file names is the projects view. *)
Inductive ProjectTabs : Type :=
| PROJECTS
| OtherTab (label : string).

(** The body of a [setTimeout] callback of this file. *)
Inductive Callback : Type :=
| SlowMessageCb (canned : string)  (* lines 42-47 *)
| GuardCb                          (* line 51, [() => {}] *)
| ProjectsTabCb                    (* lines 115-117 *)
| StartRunnerCb.                   (* lines 130-132 *)

(** A pending timer.  Handles are positive integers, so a handle is always
    truthy in [if (this.slowConnectionTimer)]. *)
Record Timer : Type := {
  timer_id : positive;
  due : Z;
  callback : Callback
}.

(** What is left to run of an [async] method after its [await]. *)
Inductive Continuation : Type :=
| KSendPrompt (prompt : string) (images : list ImageMessageContext) (blank : bool)
| KCancel.

(** How the promise returned by an [async] method settles. *)
Inductive Settlement : Type :=
| Fulfilled
| Rejected (reason : string).

(** Outward effects, in the order they happen. *)
Inductive Effect : Type :=
| AnalyticsPromptCreate (prompt : string) (blank : bool)   (* lines 93-96 *)
| AnalyticsSuccess                                         (* line 133 *)
| AnalyticsError (err : option string)                           (* lines 137-139 *)
| Invoke (channel : MainChannels)
         (args : option (string * list ImageMessageContext))
| GenerateCreatedSuggestions (prompt text : string)
                             (images : list ImageMessageContext)
| StartIfPortAvailable
| Settle (request : positive) (outcome : Settlement).

(** The detachment closure stored in [cleanupListener] (lines 72-74):
    it removes the listeners of [CREATE_NEW_PROJECT_PROMPT_CALLBACK]. *)
Inductive Closure : Type :=
| RemoveProgressListeners.

(** The fields of [class CreateManager] (lines 24-29).  [progress] is a
    JavaScript number; the model takes its integer values and adds them
    exactly, which is what the code does as long as the operands and the
    sum stay within 2^53 in magnitude ([exact_sum]); a theorem about the
    value of a sum carries that bound. *)
Record CreateManager : Type := {
  createState : CreateState;
  progress : Z;
  message : option string;
  error : option string;
  cleanupListener : option Closure;
  slowConnectionTimer : option positive
}.

(** What this file reads and writes of the owning [ProjectsManager]:
    the active project, the active tab, and whether the optional
    [editorEngine] and [runner] are present. *)
Record ProjectsManager : Type := {
  project : option Project;
  projectsTab : ProjectTabs;
  editorEngine : bool;
  runner : bool
}.

Record World : Type := {
  cm : CreateManager;
  pm : ProjectsManager;
  now : Z;
  timers : list Timer;
  nextTimer : positive;
  listeners : nat;
  inflight : list (positive * Continuation);
  nextRequest : positive;
  effects : list Effect
}.

Definition Action : Type := World -> World.

(** The observable [state] getter (lines 79-81). *)
Definition state (w : World) : CreateState := createState (cm w).

(* ------------------------------------------------------------------ *)
(** *** Field updates *)

Definition with_cm (f : CreateManager -> CreateManager) : Action := fun w =>
  {| cm := f (cm w); pm := pm w; now := now w; timers := timers w;
     nextTimer := nextTimer w; listeners := listeners w;
     inflight := inflight w; nextRequest := nextRequest w;
     effects := effects w |}.

Definition with_pm (f : ProjectsManager -> ProjectsManager) : Action := fun w =>
  {| cm := cm w; pm := f (pm w); now := now w; timers := timers w;
     nextTimer := nextTimer w; listeners := listeners w;
     inflight := inflight w; nextRequest := nextRequest w;
     effects := effects w |}.

Definition with_timers (f : list Timer -> list Timer) : Action := fun w =>
  {| cm := cm w; pm := pm w; now := now w; timers := f (timers w);
     nextTimer := nextTimer w; listeners := listeners w;
     inflight := inflight w; nextRequest := nextRequest w;
     effects := effects w |}.

Definition with_now (t : Z) : Action := fun w =>
  {| cm := cm w; pm := pm w; now := t; timers := timers w;
     nextTimer := nextTimer w; listeners := listeners w;
     inflight := inflight w; nextRequest := nextRequest w;
     effects := effects w |}.

Definition with_listeners (n : nat) : Action := fun w =>
  {| cm := cm w; pm := pm w; now := now w; timers := timers w;
     nextTimer := nextTimer w; listeners := n;
     inflight := inflight w; nextRequest := nextRequest w;
     effects := effects w |}.

Definition with_inflight (l : list (positive * Continuation)) : Action := fun w =>
  {| cm := cm w; pm := pm w; now := now w; timers := timers w;
     nextTimer := nextTimer w; listeners := listeners w;
     inflight := l; nextRequest := nextRequest w;
     effects := effects w |}.

Definition emit (e : Effect) : Action := fun w =>
  {| cm := cm w; pm := pm w; now := now w; timers := timers w;
     nextTimer := nextTimer w; listeners := listeners w;
     inflight := inflight w; nextRequest := nextRequest w;
     effects := effects w ++ [e] |}.

Definition assign_createState (s : CreateState) : Action :=
  with_cm (fun c =>
    {| createState := s; progress := progress c; message := message c;
       error := error c; cleanupListener := cleanupListener c;
       slowConnectionTimer := slowConnectionTimer c |}).

Definition assign_progress (p : Z) : Action :=
  with_cm (fun c =>
    {| createState := createState c; progress := p; message := message c;
       error := error c; cleanupListener := cleanupListener c;
       slowConnectionTimer := slowConnectionTimer c |}).

Definition assign_message (m : option string) : Action :=
  with_cm (fun c =>
    {| createState := createState c; progress := progress c; message := m;
       error := error c; cleanupListener := cleanupListener c;
       slowConnectionTimer := slowConnectionTimer c |}).

Definition assign_error (e : option string) : Action :=
  with_cm (fun c =>
    {| createState := createState c; progress := progress c;
       message := message c; error := e;
       cleanupListener := cleanupListener c;
       slowConnectionTimer := slowConnectionTimer c |}).

Definition assign_cleanupListener (k : option Closure) : Action :=
  with_cm (fun c =>
    {| createState := createState c; progress := progress c;
       message := message c; error := error c; cleanupListener := k;
       slowConnectionTimer := slowConnectionTimer c |}).

Definition assign_slowConnectionTimer (h : option positive) : Action :=
  with_cm (fun c =>
    {| createState := createState c; progress := progress c;
       message := message c; error := error c;
       cleanupListener := cleanupListener c; slowConnectionTimer := h |}).

Definition assign_project (p : option Project) : Action :=
  with_pm (fun m =>
    {| project := p; projectsTab := projectsTab m;
       editorEngine := editorEngine m; runner := runner m |}).

Definition assign_projectsTab (t : ProjectTabs) : Action :=
  with_pm (fun m =>
    {| project := project m; projectsTab := t;
       editorEngine := editorEngine m; runner := runner m |}).

(** Sequencing of statements: [a ;; b] runs [a], then [b]. *)
Definition andThen (a b : Action) : Action := fun w => b (a w).
Notation "a ;; b" := (andThen a b) (at level 61, right associativity).

Definition skip : Action := fun w => w.

(* ================================================================== *)
(** ** The host environment: timers, listeners, backend requests *)

(** [setTimeout(cb, delay)]: a fresh handle, the timer appended to the
    pending ones. *)
Definition setTimeout (cb : Callback) (delay : Z) (w : World) : positive * World :=
  (nextTimer w,
   {| cm := cm w; pm := pm w; now := now w;
      timers := timers w ++ [ {| timer_id := nextTimer w;
                                 due := now w + delay;
                                 callback := cb |} ];
      nextTimer := Pos.succ (nextTimer w); listeners := listeners w;
      inflight := inflight w; nextRequest := nextRequest w;
      effects := effects w |}).

(** [setTimeout] whose handle is dropped. *)
Definition setTimeout_ (cb : Callback) (delay : Z) : Action :=
  fun w => snd (setTimeout cb delay w).

(** [clearTimeout(id)]. *)
Definition clearTimeout (id : positive) : Action :=
  with_timers (filter (fun t => negb (Pos.eqb (timer_id t) id))).

(** [window.api.on(CREATE_NEW_PROJECT_PROMPT_CALLBACK, handler)]. *)
Definition api_on : Action := fun w => with_listeners (S (listeners w)) w.

(** [window.api.removeAllListeners(CREATE_NEW_PROJECT_PROMPT_CALLBACK)]. *)
Definition api_removeAllListeners : Action := with_listeners 0%nat.

(** Running a stored detachment closure. *)
Definition call_closure (k : Closure) : Action :=
  match k with
  | RemoveProgressListeners => api_removeAllListeners
  end.

(** Modelled from the spec: [invokeMainChannel] of [../utils] is not part
    of the sources.  Section 9 gives the backend client as
    [invoke(requestKind, payload) -> response]: the request is sent, and
    the caller is resumed later with the response.  The request is logged
    and the rest of the method is parked under a fresh request number.  A
    request that is never answered stays parked.  The promise of a
    request may also be rejected instead of answered: the [await] then
    throws ([sendPrompt_refused], [cancel_refused]). *)
Definition invokeMainChannel
  (channel : MainChannels) (args : option (string * list ImageMessageContext))
  (k : Continuation) : Action := fun w =>
  {| cm := cm w; pm := pm w; now := now w; timers := timers w;
     nextTimer := nextTimer w; listeners := listeners w;
     inflight := inflight w ++ [(nextRequest w, k)];
     nextRequest := Pos.succ (nextRequest w);
     effects := effects w ++ [Invoke channel args] |}.

(** Modelled from the spec: [sendAnalytics] of [../utils] is not part of
    the sources; section 6 gives the analytics sink as
    [event name, free-form properties].  The event is logged. *)
Definition sendAnalytics (e : Effect) : Action := emit e.

(* ================================================================== *)
(** ** The methods of [CreateManager] *)

(** [startSlowConnectionTimer] (lines 36-54). *)
Definition startSlowConnectionTimer : Action :=
  (fun w => match slowConnectionTimer (cm w) with
            | Some id => clearTimeout id w
            | None => w
            end) ;;
  (fun w => fold_left
              (fun acc m => setTimeout_ (SlowMessageCb (snd m)) (fst m) acc)
              SLOW_CREATE_MESSAGES w) ;;
  (fun w => let (id, w') := setTimeout GuardCb (max_time SLOW_CREATE_MESSAGES) w in
            assign_slowConnectionTimer (Some id) w').

(** [clearSlowConnectionTimer] (lines 56-61). *)
Definition clearSlowConnectionTimer : Action := fun w =>
  match slowConnectionTimer (cm w) with
  | Some id => (clearTimeout id ;; assign_slowConnectionTimer None) w
  | None => w
  end.

(** The handler registered by [listenForPromptProgress] (lines 66-69). *)
Definition onPromptProgress (message0 : string) (progress0 : Z) : Action :=
  assign_progress progress0 ;; assign_message (Some message0).

(** [listenForPromptProgress] (lines 63-77). *)
Definition listenForPromptProgress : Action :=
  api_on ;;
  assign_cleanupListener (Some RemoveProgressListeners).

(** [set state(newState)] (lines 83-90). *)
Definition set_state (newState : CreateState) : Action :=
  assign_createState newState ;;
  (if CreateState_eqb newState CREATE_LOADING
   then startSlowConnectionTimer
   else clearSlowConnectionTimer).

(** [createProject] (lines 143-158). *)
Definition createProject (projectPath0 : string) : Project :=
  let projectName := "New Project" in
  let projectUrl := "http://localhost:3000" in
  let projectCommands :=
    {| install := "npm install"; run := "npm run dev";
       build := "npm run build" |} in
  ProjectsManager_createProject projectName projectUrl projectPath0 projectCommands.

(** [sendPrompt], up to its [await] (lines 92-109). *)
Definition sendPrompt_call
  (prompt : string) (images : list ImageMessageContext) (blank : bool) : Action :=
  sendAnalytics (AnalyticsPromptCreate prompt blank) ;;
  set_state CREATE_LOADING ;;
  assign_error None ;;
  (if blank
   then invokeMainChannel CREATE_NEW_BLANK_PROJECT None
          (KSendPrompt prompt images blank)
   else invokeMainChannel CREATE_NEW_PROJECT_PROMPT (Some (prompt, images))
          (KSendPrompt prompt images blank)).

(** The condition of line 111:
    [result.success && result.response?.projectPath]. *)
Definition is_success (result : CreateProjectResponse) : bool :=
  success result &&
  truthy (match response result with
          | Some r => Some (projectPath r)
          | None => None
          end).

(** [result.response?.content] (line 120). *)
Definition response_content (result : CreateProjectResponse) : option string :=
  match response result with
  | Some r => content r
  | None => None
  end.

(** Reading a property the surrounding test has found truthy. *)
Definition present (s : option string) : string :=
  match s with
  | Some v => v
  | None => ""
  end.

(** The success branch of [sendPrompt] (lines 112-133). *)
Definition sendPrompt_success
  (prompt : string) (images : list ImageMessageContext) (blank : bool)
  (result : CreateProjectResponse) : Action :=
  set_state PROMPT ;;
  (fun w =>
     let newProject :=
       createProject (present (option_map projectPath (response result))) in
     assign_project (Some newProject) w) ;;
  setTimeout_ ProjectsTabCb 100 ;;
  (if negb blank && truthy (response_content result)
   then (fun w => if editorEngine (pm w)
                  then emit (GenerateCreatedSuggestions prompt
                               (present (response_content result)) images) w
                  else w)
   else skip) ;;
  clearSlowConnectionTimer ;;
  setTimeout_ StartRunnerCb 1000 ;;
  sendAnalytics AnalyticsSuccess.

(** The failure branch of [sendPrompt] (lines 135-139). *)
Definition sendPrompt_failure (result : CreateProjectResponse) : Action :=
  assign_error (Some (or_else (resp_error result) "Failed to create project")) ;;
  set_state ERROR ;;
  (fun w => sendAnalytics (AnalyticsError (error (cm w))) w).

(** [sendPrompt], from the backend's reply on (lines 111-141). *)
Definition sendPrompt_resume
  (prompt : string) (images : list ImageMessageContext) (blank : bool)
  (result : CreateProjectResponse) (w : World) : Settlement * World :=
  if is_success result
  then (Fulfilled, sendPrompt_success prompt images blank result w)
  else (Fulfilled, sendPrompt_failure result w).

(** [sendPrompt] when its request is refused: the [await] of lines
    103-108 throws, the method has no [try], so nothing of lines 111-140
    runs and the promise it returned is rejected with the same reason. *)
Definition sendPrompt_refused (reason : string) (w : World)
  : Settlement * World :=
  (Rejected reason, w).


(** [sendPrompt] when nothing else runs while the backend works: the call
    followed at once by the reply [result]. *)
Definition sendPrompt
  (prompt : string) (images : list ImageMessageContext) (blank : bool)
  (result : CreateProjectResponse) (w : World) : Settlement * World :=
  sendPrompt_resume prompt images blank result
    (sendPrompt_call prompt images blank w).

(** [cancel], up to its [await] (line 161). *)
Definition cancel_call : Action :=
  invokeMainChannel CANCEL_CREATE_NEW_PROJECT_PROMPT None KCancel.

(** [cancel], from the backend's reply on (line 162); the reply is not
    looked at. *)
Definition cancel_resume (reply : JsValue) (w : World) : Settlement * World :=
  (Fulfilled, set_state PROMPT w).

(** [cancel] when its request is refused: the [await] of line 161
    throws, line 162 does not run and the promise is rejected. *)
Definition cancel_refused (reason : string) (w : World)
  : Settlement * World :=
  (Rejected reason, w).

(** [cancel], from the end of its [await] on. *)
Definition cancel_settled (outcome : Awaited JsValue) (w : World)
  : Settlement * World :=
  match outcome with
  | Resolved reply => cancel_resume reply w
  | Refused reason => cancel_refused reason w
  end.


(** [cleanup] (lines 165-171). *)
Definition cleanup : Action :=
  (fun w => match cleanupListener (cm w) with
            | Some k => (call_closure k ;; assign_cleanupListener None) w
            | None => w
            end) ;;
  clearSlowConnectionTimer.

(** The constructor (lines 31-34), on the field initialisers of lines
    24-29, for a manager owned by [owner]. *)
Definition initial_manager : CreateManager :=
  {| createState := PROMPT; progress := 0; message := None; error := None;
     cleanupListener := None; slowConnectionTimer := None |}.

Definition construct (owner : ProjectsManager) : World :=
  listenForPromptProgress
    {| cm := initial_manager; pm := owner; now := 0; timers := [];
       nextTimer := 1%positive; listeners := 0%nat; inflight := [];
       nextRequest := 1%positive; effects := [] |}.

(* ================================================================== *)
(** ** The event loop *)

(** What a timer does when it fires. *)
Definition run_callback (cb : Callback) : Action :=
  match cb with
  | SlowMessageCb canned => fun w =>
      if CreateState_eqb (state w) CREATE_LOADING
      then (assign_message (Some canned) ;;
            (fun w' => assign_progress (progress (cm w') + 10) w')) w
      else w
  | GuardCb => skip
  | ProjectsTabCb => assign_projectsTab PROJECTS
  | StartRunnerCb => fun w =>
      if runner (pm w) then emit StartIfPortAvailable w else w
  end.

(** The pending timer that fires next: the least due time, the older
    timer first among equals. *)
Fixpoint earliest (ts : list Timer) : option Timer :=
  match ts with
  | [] => None
  | t :: rest =>
      match earliest rest with
      | Some u => if due u <? due t then Some u else Some t
      | None => Some t
      end
  end.

(** Firing a pending timer: it leaves the pending ones, the clock is at
    least its due time, its callback runs. *)
Definition fire (t : Timer) : Action :=
  clearTimeout (timer_id t) ;;
  (fun w => with_now (Z.max (now w) (due t)) w) ;;
  run_callback (callback t).

(** Fire, in order, the timers due up to [deadline]. *)
Fixpoint run_timers (fuel : nat) (deadline : Z) (w : World) : World :=
  match fuel with
  | O => w
  | S fuel' =>
      match earliest (timers w) with
      | Some t =>
          if due t <=? deadline
          then run_timers fuel' deadline (fire t w)
          else w
      | None => w
      end
  end.

(** [ms] milliseconds pass.  No callback of this file sets a timer, so
    one round per pending timer is enough ([elapse_complete]). *)
Definition elapse (ms : Z) : Action := fun w =>
  let deadline := now w + Z.max 0 ms in
  with_now deadline (run_timers (List.length (timers w)) deadline w).

(** A progress notification on [CREATE_NEW_PROJECT_PROMPT_CALLBACK]: every
    registered handler runs. *)
Fixpoint deliver (n : nat) (message0 : string) (progress0 : Z) : Action :=
  match n with
  | O => skip
  | S n' => onPromptProgress message0 progress0 ;; deliver n' message0 progress0
  end.

Definition notify (message0 : string) (progress0 : Z) : Action :=
  fun w => deliver (listeners w) message0 progress0 w.

Fixpoint take_request (id : positive) (l : list (positive * Continuation))
  : option (Continuation * list (positive * Continuation)) :=
  match l with
  | [] => None
  | (i, k) :: rest =>
      if Pos.eqb i id then Some (k, rest)
      else match take_request id rest with
           | Some (k', rest') => Some (k', (i, k) :: rest')
           | None => None
           end
  end.

(** What can happen to the manager: its public methods are called, the
    backend answers a pending request or refuses it, a notification
    arrives, time passes. *)
Inductive Event : Type :=
| CallSendPrompt (prompt : string) (images : list ImageMessageContext) (blank : bool)
| CallCancel
| CallCleanup
| CallListenForPromptProgress
| ReplyCreate (request : positive) (result : CreateProjectResponse)
| ReplyCancel (request : positive) (reply : JsValue)
| PromptProgress (message0 : string) (progress0 : Z)
| Elapse (ms : Z)
| Refuse (request : positive) (reason : string).

(** Resuming a parked method settles the promise it returned. *)
Definition settle (request : positive) (r : Settlement * World) : World :=
  emit (Settle request (fst r)) (snd r).

(** One turn of the event loop.  A reply to a request that is not pending,
    or of the wrong kind for it, is not a turn the program can take: the
    world is left as it is. *)
Definition step (e : Event) (w : World) : World :=
  match e with
  | CallSendPrompt prompt images blank => sendPrompt_call prompt images blank w
  | CallCancel => cancel_call w
  | CallCleanup => cleanup w
  | CallListenForPromptProgress => listenForPromptProgress w
  | ReplyCreate id result =>
      match take_request id (inflight w) with
      | Some (KSendPrompt prompt images blank, rest) =>
          settle id (sendPrompt_resume prompt images blank result
                       (with_inflight rest w))
      | _ => w
      end
  | ReplyCancel id reply =>
      match take_request id (inflight w) with
      | Some (KCancel, rest) =>
          settle id (cancel_resume reply (with_inflight rest w))
      | _ => w
      end
  | PromptProgress message0 progress0 => notify message0 progress0 w
  | Elapse ms => elapse ms w
  | Refuse id reason =>
      match take_request id (inflight w) with
      | Some (KSendPrompt _ _ _, rest) =>
          settle id (sendPrompt_refused reason (with_inflight rest w))
      | Some (KCancel, rest) =>
          settle id (cancel_refused reason (with_inflight rest w))
      | None => w
      end
  end.

Definition run_events (evs : list Event) (w : World) : World :=
  fold_left (fun acc e => step e acc) evs w.

(** The states the manager of a given owner can be in. *)
Definition reachable (w : World) : Prop :=
  exists owner evs, w = run_events evs (construct owner).

(* ================================================================== *)
(** ** Specification vocabulary *)

(** The pending timers a (re)start of the slow-connection timer keeps:
    all but the one under the stored handle. *)
Definition kept_timers (w : World) : list Timer :=
  match slowConnectionTimer (cm w) with
  | Some id => filter (fun t => negb (Pos.eqb (timer_id t) id)) (timers w)
  | None => timers w
  end.

(** The six timers entering [CREATE_LOADING] sets, for a clock at [t0]
    and a next free handle [h]. *)
Definition slow_schedule (h : positive) (t0 : Z) : list Timer :=
  [ {| timer_id := h; due := t0 + 15000;
       callback := SlowMessageCb "Finalizing layout..." |};
    {| timer_id := Pos.succ h; due := t0 + 30000;
       callback := SlowMessageCb "Drafting copy..." |};
    {| timer_id := Pos.succ (Pos.succ h); due := t0 + 45000;
       callback := SlowMessageCb "Finalizing design..." |};
    {| timer_id := Pos.succ (Pos.succ (Pos.succ h)); due := t0 + 60000;
       callback := SlowMessageCb "Completing setup..." |};
    {| timer_id := Pos.succ (Pos.succ (Pos.succ (Pos.succ h)));
       due := t0 + 75000;
       callback := SlowMessageCb "Starting project..." |};
    {| timer_id := Pos.succ (Pos.succ (Pos.succ (Pos.succ (Pos.succ h))));
       due := t0 + 75000;
       callback := GuardCb |} ].

(** [w'] differs from [w] at most in [createState], the timer handle and
    the pending timers: what an assignment to [state] may touch. *)
Definition only_state_changed (w w' : World) : Prop :=
  progress (cm w') = progress (cm w) /\
  message (cm w') = message (cm w) /\
  error (cm w') = error (cm w) /\
  cleanupListener (cm w') = cleanupListener (cm w) /\
  pm w' = pm w /\
  listeners w' = listeners w /\
  inflight w' = inflight w /\
  effects w' = effects w /\
  now w' = now w.

(** [w'] agrees with [w] on everything timers and notifications never
    write, and has no pending timer [w] did not have. *)
Definition untouched (w w' : World) : Prop :=
  state w' = state w /\
  error (cm w') = error (cm w) /\
  cleanupListener (cm w') = cleanupListener (cm w) /\
  slowConnectionTimer (cm w') = slowConnectionTimer (cm w) /\
  listeners w' = listeners w /\
  inflight w' = inflight w /\
  incl (timers w') (timers w).

(** A trace is sequential when it never calls [cancel] and starts a
    [sendPrompt] only while no request is pending. *)
Definition sequential (e : Event) (w : World) : bool :=
  match e with
  | CallCancel => false
  | CallSendPrompt _ _ _ =>
      match inflight w with
      | [] => true
      | _ :: _ => false
      end
  | _ => true
  end.

Fixpoint sequential_from (w : World) (evs : list Event) : bool :=
  match evs with
  | [] => true
  | e :: rest => sequential e w && sequential_from (step e w) rest
  end.

(** The invariants of reachable worlds. *)
Definition error_inv (w : World) : Prop :=
  (state w = CREATE_LOADING -> error (cm w) = None) /\
  state w <> IMPORT /\
  (state w = ERROR -> error (cm w) <> None).

Definition listener_inv (w : World) : Prop :=
  cleanupListener (cm w) = None -> listeners w = 0%nat.

Definition guard_inv (w : World) : Prop :=
  forall t, In t (timers w) -> callback t = GuardCb ->
            slowConnectionTimer (cm w) = Some (timer_id t).

Definition strict_inv (w : World) : Prop :=
  (error (cm w) <> None -> state w = ERROR) /\
  (inflight w = [] \/
   (error (cm w) = None /\
    exists id prompt images blank,
      inflight w = [(id, KSendPrompt prompt images blank)])).

(** A reply counts as a failure when [success] is false or the project
    path is missing or empty. *)
Definition failed (result : CreateProjectResponse) : Prop :=
  success result = false \/
  response result = None \/
  option_map projectPath (response result) = Some "".

Definition generic_error : string := "Failed to create project".

(** The record [sendPrompt] installs for a project at [p]. *)
Definition new_project_at (p : string) : Project :=
  {| name := "New Project";
     url := "http://localhost:3000";
     path := p;
     commands := {| install := "npm install";
                    run := "npm run dev";
                    build := "npm run build" |} |}.

(** Sample data for the worked traces. *)
Definition sample_owner : ProjectsManager :=
  {| project := None; projectsTab := OtherTab "prompt-create";
     editorEngine := true; runner := true |}.

Definition created_at (p : string) : CreateProjectResponse :=
  {| success := true;
     response := Some {| projectPath := p; content := None |};
     resp_error := None |}.

Definition failed_with (e : option string) : CreateProjectResponse :=
  {| success := false; response := None; resp_error := e |}.

(** A prompt fails with "disk full", then the user cancels. *)
Definition failed_then_cancelled : list Event :=
  [ CallSendPrompt "x" [] false;
    ReplyCreate 1%positive (failed_with (Some "disk full"));
    CallCancel;
    ReplyCancel 2%positive JsUndefined ].

(** A freshly built manager that has just sent a prompt. *)
Definition loading_world : World :=
  run_events [ CallSendPrompt "x" [] false ] (construct sample_owner).

(** The same manager after the backend answered "disk full". *)
Definition failed_world : World :=
  run_events [ CallSendPrompt "x" [] false;
        ReplyCreate 1%positive (failed_with (Some "disk full")) ]
      (construct sample_owner).

(** A first attempt fails after one second, a second one starts after
    two; the timers of the first attempt are still pending. *)
Definition retried_world : World :=
  run_events [ CallSendPrompt "x" [] false;
        Elapse 1000;
        ReplyCreate 1%positive (failed_with None);
        Elapse 1000;
        CallSendPrompt "y" [] false ]
      (construct sample_owner).

(* ------------------------------------------------------------------ *)
(** *** Vocabulary of the further properties *)

(** Kinds of pending timers. *)
Definition is_slow (t : Timer) : bool :=
  match callback t with
  | SlowMessageCb _ => true
  | _ => false
  end.

Definition is_guard (t : Timer) : bool :=
  match callback t with
  | GuardCb => true
  | _ => false
  end.

(** A slow-message timer that is due by [deadline]. *)
Definition slow_due (deadline : Z) (t : Timer) : bool :=
  is_slow t && (due t <=? deadline).

(** Timer handles are handed out once: pending timers have distinct
    handles below the next free one, and so has the stored handle, which
    names no timer but a guard timer. *)
Definition timer_ids_inv (w : World) : Prop :=
  NoDup (map timer_id (timers w)) /\
  (forall t, In t (timers w) -> (timer_id t < nextTimer w)%positive) /\
  (forall h, slowConnectionTimer (cm w) = Some h ->
             (h < nextTimer w)%positive) /\
  (forall t, In t (timers w) ->
             slowConnectionTimer (cm w) = Some (timer_id t) ->
             callback t = GuardCb).

(** Request numbers are handed out once. *)
Definition request_ids_inv (w : World) : Prop :=
  NoDup (map fst (inflight w)) /\
  (forall x, In x (inflight w) -> (fst x < nextRequest w)%positive).

(** A recorded error is never the empty string. *)
Definition error_text_inv (w : World) : Prop :=
  forall e, error (cm w) = Some e -> e <> "".

(** The stored timer handle is null outside [CREATE_LOADING]. *)
Definition handle_inv (w : World) : Prop :=
  state w <> CREATE_LOADING -> slowConnectionTimer (cm w) = None.

(** Counting the entries of a list that pass a test. *)
Definition count {A : Type} (f : A -> bool) (l : list A) : nat :=
  List.length (filter f l).



Definition is_suggestion (e : Effect) : bool :=
  match e with
  | GenerateCreatedSuggestions _ _ _ => true
  | _ => false
  end.


Definition is_elapse (e : Event) : bool :=
  match e with
  | Elapse _ => true
  | _ => false
  end.

Definition is_notification (e : Event) : bool :=
  match e with
  | PromptProgress _ _ => true
  | _ => false
  end.

Definition is_reply_to (id : positive) (e : Event) : bool :=
  match e with
  | ReplyCreate i _ => Pos.eqb i id
  | Refuse i _ => Pos.eqb i id
  | _ => false
  end.



(** JavaScript adds two integers exactly when both and their sum are
    within 2^53 in magnitude. *)
Definition exact_sum (a b : Z) : Prop :=
  Z.abs a <= 2 ^ 53 /\ Z.abs b <= 2 ^ 53 /\ Z.abs (a + b) <= 2 ^ 53.

(** The first attempt of [retried_world] has just failed, one second
    after it started. *)
Definition first_attempt_failed : World :=
  run_events [ CallSendPrompt "x" [] false;
               Elapse 1000;
               ReplyCreate 1%positive (failed_with None) ]
             (construct sample_owner).

(* ================================================================== *)
(** ** What an assignment to [state] does *)

Ltac world w :=
  destruct w as [[st pr msg er cl sl] [pj tab ee rn] t0 ts nt ls fl nr ef].

Lemma CreateState_eqb_eq a b : CreateState_eqb a b = true <-> a = b.
Proof. destruct a, b; simpl; split; congruence. Qed.

Lemma CreateState_eqb_neq a b : CreateState_eqb a b = false <-> a <> b.
Proof. destruct a, b; simpl; split; congruence. Qed.

Lemma set_state_state s w : state (set_state s w) = s.
Proof. world w. destruct s, sl; reflexivity. Qed.


Lemma set_state_loading_timers w :
  timers (set_state CREATE_LOADING w) =
  kept_timers w ++ slow_schedule (nextTimer w) (now w).
Proof.
  world w. unfold kept_timers, slow_schedule.
  destruct sl; cbn; repeat rewrite <- app_assoc; reflexivity.
Qed.

Lemma set_state_loading_handle w :
  slowConnectionTimer (cm (set_state CREATE_LOADING w)) =
  Some (Pos.succ (Pos.succ (Pos.succ (Pos.succ (Pos.succ (nextTimer w)))))).
Proof. world w. destruct sl; reflexivity. Qed.

Lemma set_state_other_timers s w :
  s <> CREATE_LOADING -> timers (set_state s w) = kept_timers w.
Proof.
  intros Hs. world w. unfold kept_timers.
  destruct s, sl; try congruence; reflexivity.
Qed.

Lemma set_state_other_handle s w :
  s <> CREATE_LOADING -> slowConnectionTimer (cm (set_state s w)) = None.
Proof. intros Hs. world w. destruct s, sl; try congruence; reflexivity. Qed.

Lemma clearSlowConnectionTimer_cm w :
  state (clearSlowConnectionTimer w) = state w /\
  only_state_changed w (clearSlowConnectionTimer w) /\
  slowConnectionTimer (cm (clearSlowConnectionTimer w)) = None /\
  timers (clearSlowConnectionTimer w) = kept_timers w.
Proof.
  world w. unfold kept_timers, only_state_changed.
  destruct sl; cbn; repeat split.
Qed.

Lemma kept_timers_incl w : incl (kept_timers w) (timers w).
Proof.
  unfold kept_timers. destruct (slowConnectionTimer (cm w)).
  - intros t Ht. apply filter_In in Ht. tauto.
  - apply incl_refl.
Qed.

Lemma kept_timers_no_guard w :
  guard_inv w -> forall t, In t (kept_timers w) -> callback t <> GuardCb.
Proof.
  intros Hg t Ht Hcb. unfold kept_timers in Ht.
  destruct (slowConnectionTimer (cm w)) as [id|] eqn:Hh.
  - apply filter_In in Ht. destruct Ht as [Hin Hne].
    specialize (Hg t Hin Hcb). rewrite Hh in Hg. inversion Hg; subst.
    rewrite Pos.eqb_refl in Hne. discriminate.
  - specialize (Hg t Ht Hcb). rewrite Hh in Hg. discriminate.
Qed.

(* ================================================================== *)
(** ** Timers and notifications *)

Lemma untouched_refl w : untouched w w.
Proof. unfold untouched; repeat split; apply incl_refl. Qed.

Lemma untouched_trans w1 w2 w3 :
  untouched w1 w2 -> untouched w2 w3 -> untouched w1 w3.
Proof.
  unfold untouched.
  intros (A1 & A2 & A3 & A4 & A5 & A6 & A7) (B1 & B2 & B3 & B4 & B5 & B6 & B7).
  repeat split; try congruence.
  eapply incl_tran; eassumption.
Qed.

Lemma run_callback_timers cb w : timers (run_callback cb w) = timers w.
Proof.
  world w. destruct cb; cbn; try reflexivity.
  - destruct (CreateState_eqb st CREATE_LOADING); reflexivity.
  - destruct rn; reflexivity.
Qed.

Lemma run_callback_untouched cb w : untouched w (run_callback cb w).
Proof.
  world w. unfold untouched, state. destruct cb; cbn.
  - destruct (CreateState_eqb st CREATE_LOADING); cbn;
      repeat split; apply incl_refl.
  - repeat split; apply incl_refl.
  - repeat split; apply incl_refl.
  - destruct rn; cbn; repeat split; apply incl_refl.
Qed.

Lemma fire_timers t w :
  timers (fire t w) =
  filter (fun u => negb (Pos.eqb (timer_id u) (timer_id t))) (timers w).
Proof. unfold fire, andThen. rewrite run_callback_timers. reflexivity. Qed.

Lemma fire_untouched t w : untouched w (fire t w).
Proof.
  unfold fire, andThen.
  eapply untouched_trans; [| apply run_callback_untouched].
  world w. unfold untouched, state; cbn. repeat split.
  intros u Hu. apply filter_In in Hu. tauto.
Qed.

Lemma run_timers_untouched fuel deadline :
  forall w, untouched w (run_timers fuel deadline w).
Proof.
  induction fuel as [|fuel IH]; intros w; simpl.
  - apply untouched_refl.
  - destruct (earliest (timers w)) as [t|]; [|apply untouched_refl].
    destruct (due t <=? deadline); [|apply untouched_refl].
    eapply untouched_trans; [apply fire_untouched | apply IH].
Qed.

Lemma with_now_untouched t w : untouched w (with_now t w).
Proof. world w. unfold untouched, state; cbn. repeat split. apply incl_refl. Qed.

Lemma elapse_untouched ms w : untouched w (elapse ms w).
Proof.
  unfold elapse.
  eapply untouched_trans; [apply run_timers_untouched | apply with_now_untouched].
Qed.

Lemma onPromptProgress_untouched m p w : untouched w (onPromptProgress m p w).
Proof. world w. unfold untouched, state; cbn. repeat split. apply incl_refl. Qed.

Lemma deliver_untouched n m p : forall w, untouched w (deliver n m p w).
Proof.
  induction n as [|n IH]; intros w; simpl.
  - apply untouched_refl.
  - unfold andThen.
    eapply untouched_trans; [apply onPromptProgress_untouched | apply IH].
Qed.

Lemma notify_untouched m p w : untouched w (notify m p w).
Proof. apply deliver_untouched. Qed.

(** [earliest] picks a pending timer of least due time. *)
Lemma earliest_none ts : earliest ts = None -> ts = [].
Proof.
  destruct ts as [|t rest]; simpl; [reflexivity|].
  destruct (earliest rest) as [u|]; [|discriminate].
  destruct (due u <? due t); discriminate.
Qed.

Lemma earliest_least ts :
  forall t, earliest ts = Some t ->
            In t ts /\ forall u, In u ts -> due t <= due u.
Proof.
  induction ts as [|a rest IH]; simpl; intros t Ht; [discriminate|].
  destruct (earliest rest) as [u|] eqn:Hr.
  - destruct (IH u eq_refl) as [Hin Hle].
    destruct (due u <? due a) eqn:Hlt; inversion Ht; subst; clear Ht.
    + apply Z.ltb_lt in Hlt. split; [right; assumption|].
      intros v [Hv|Hv]; [subst; lia | apply Hle; assumption].
    + apply Z.ltb_ge in Hlt. split; [left; reflexivity|].
      intros v [Hv|Hv]; [subst; lia|].
      specialize (Hle v Hv). lia.
  - inversion Ht; subst; clear Ht. apply earliest_none in Hr. subst rest.
    split; [left; reflexivity|].
    intros v [Hv|[]]; subst; lia.
Qed.

Lemma filter_out_shorter (f : Timer -> bool) ts t :
  In t ts -> f t = false -> (List.length (filter f ts) < List.length ts)%nat.
Proof.
  induction ts as [|a rest IH]; simpl; intros Hin Hf; [contradiction|].
  pose proof (filter_length_le f rest) as Hle.
  destruct Hin as [Ha|Hin].
  - subst a. rewrite Hf. lia.
  - specialize (IH Hin Hf). destruct (f a); simpl; lia.
Qed.

Lemma run_timers_complete fuel deadline :
  forall w, (List.length (timers w) <= fuel)%nat ->
            Forall (fun t => deadline < due t)
                   (timers (run_timers fuel deadline w)).
Proof.
  induction fuel as [|fuel IH]; intros w Hlen; simpl.
  - destruct (timers w); [constructor | simpl in Hlen; lia].
  - destruct (earliest (timers w)) as [t|] eqn:He.
    + destruct (earliest_least _ _ He) as [Hin Hle].
      destruct (due t <=? deadline) eqn:Hd.
      * apply IH. rewrite fire_timers.
        assert (List.length
                  (filter (fun u => negb (Pos.eqb (timer_id u) (timer_id t)))
                          (timers w)) < List.length (timers w))%nat.
        { apply filter_out_shorter with (t := t); [assumption|].
          rewrite Pos.eqb_refl. reflexivity. }
        lia.
      * apply Z.leb_gt in Hd. apply Forall_forall.
        intros u Hu. specialize (Hle u Hu). lia.
    + apply earliest_none in He. rewrite He. constructor.
Qed.

(** After [elapse], no pending timer is due: the rounds of [run_timers]
    were enough. *)
Lemma elapse_complete ms w :
  Forall (fun t => now (elapse ms w) < due t) (timers (elapse ms w)).
Proof.
  unfold elapse. cbn.
  apply run_timers_complete. apply le_n.
Qed.

(* ================================================================== *)
(** ** What each method writes *)

Lemma sendPrompt_call_cm prompt images blank w :
  cm (sendPrompt_call prompt images blank w) =
  {| createState := CREATE_LOADING;
     progress := progress (cm w);
     message := message (cm w);
     error := None;
     cleanupListener := cleanupListener (cm w);
     slowConnectionTimer := slowConnectionTimer (cm (set_state CREATE_LOADING w)) |}.
Proof. world w. destruct blank, sl; reflexivity. Qed.

Lemma sendPrompt_call_world prompt images blank w :
  let w' := sendPrompt_call prompt images blank w in
  pm w' = pm w /\ now w' = now w /\ listeners w' = listeners w /\
  timers w' = kept_timers w ++ slow_schedule (nextTimer w) (now w) /\
  inflight w' = inflight w ++ [(nextRequest w, KSendPrompt prompt images blank)].
Proof.
  cbv zeta. world w. unfold kept_timers, slow_schedule.
  destruct blank, sl; cbn; repeat rewrite <- app_assoc; repeat split.
Qed.

Lemma sendPrompt_success_cm prompt images blank result w :
  cm (sendPrompt_success prompt images blank result w) =
  {| createState := PROMPT;
     progress := progress (cm w);
     message := message (cm w);
     error := error (cm w);
     cleanupListener := cleanupListener (cm w);
     slowConnectionTimer := None |}.
Proof.
  world w. unfold sendPrompt_success.
  destruct (negb blank && truthy (response_content result)), ee, sl;
    reflexivity.
Qed.

Lemma sendPrompt_success_world prompt images blank result w :
  let w' := sendPrompt_success prompt images blank result w in
  project (pm w') =
    Some (createProject (present (option_map projectPath (response result)))) /\
  listeners w' = listeners w /\ inflight w' = inflight w /\
  timers w' =
    kept_timers w ++
    [ {| timer_id := nextTimer w; due := now w + 100;
         callback := ProjectsTabCb |};
      {| timer_id := Pos.succ (nextTimer w); due := now w + 1000;
         callback := StartRunnerCb |} ].
Proof.
  cbv zeta. world w. unfold sendPrompt_success, kept_timers.
  destruct (negb blank && truthy (response_content result)), ee, sl;
    cbn; repeat rewrite <- app_assoc; repeat split.
Qed.

Lemma sendPrompt_failure_cm result w :
  cm (sendPrompt_failure result w) =
  {| createState := ERROR;
     progress := progress (cm w);
     message := message (cm w);
     error := Some (or_else (resp_error result) "Failed to create project");
     cleanupListener := cleanupListener (cm w);
     slowConnectionTimer := None |}.
Proof. world w. destruct sl; reflexivity. Qed.

Lemma sendPrompt_failure_world result w :
  let w' := sendPrompt_failure result w in
  pm w' = pm w /\ listeners w' = listeners w /\ inflight w' = inflight w /\
  timers w' = kept_timers w.
Proof. cbv zeta. world w. unfold kept_timers. destruct sl; cbn; repeat split. Qed.

Lemma cancel_call_world w :
  let w' := cancel_call w in
  cm w' = cm w /\ pm w' = pm w /\ timers w' = timers w /\
  listeners w' = listeners w /\
  inflight w' = inflight w ++ [(nextRequest w, KCancel)].
Proof. cbv zeta. world w. cbn. repeat split. Qed.

Lemma cancel_resume_cm reply w :
  cm (snd (cancel_resume reply w)) =
  {| createState := PROMPT;
     progress := progress (cm w);
     message := message (cm w);
     error := error (cm w);
     cleanupListener := cleanupListener (cm w);
     slowConnectionTimer := None |}.
Proof. world w. destruct sl; reflexivity. Qed.

Lemma cancel_resume_world reply w :
  let w' := snd (cancel_resume reply w) in
  pm w' = pm w /\ listeners w' = listeners w /\ inflight w' = inflight w /\
  effects w' = effects w /\ timers w' = kept_timers w.
Proof. cbv zeta. world w. unfold kept_timers. destruct sl; cbn; repeat split. Qed.

Lemma cleanup_cm w :
  cm (cleanup w) =
  {| createState := createState (cm w);
     progress := progress (cm w);
     message := message (cm w);
     error := error (cm w);
     cleanupListener := None;
     slowConnectionTimer := None |}.
Proof. world w. destruct cl as [[]|], sl; reflexivity. Qed.

Lemma cleanup_world w :
  let w' := cleanup w in
  pm w' = pm w /\ inflight w' = inflight w /\ effects w' = effects w /\
  now w' = now w /\ nextTimer w' = nextTimer w /\
  nextRequest w' = nextRequest w /\
  timers w' = kept_timers w /\
  listeners w' = match cleanupListener (cm w) with
                 | Some _ => 0%nat
                 | None => listeners w
                 end.
Proof.
  cbv zeta. world w. unfold kept_timers.
  destruct cl as [[]|], sl; cbn; repeat split.
Qed.

Lemma listenForPromptProgress_world w :
  let w' := listenForPromptProgress w in
  state w' = state w /\ error (cm w') = error (cm w) /\
  cleanupListener (cm w') = Some RemoveProgressListeners /\
  slowConnectionTimer (cm w') = slowConnectionTimer (cm w) /\
  listeners w' = S (listeners w) /\ inflight w' = inflight w /\
  timers w' = timers w.
Proof. cbv zeta. world w. cbn. repeat split. Qed.

Lemma settle_world id r :
  cm (settle id r) = cm (snd r) /\ pm (settle id r) = pm (snd r) /\
  timers (settle id r) = timers (snd r) /\
  listeners (settle id r) = listeners (snd r) /\
  inflight (settle id r) = inflight (snd r).
Proof. destruct r as [s w]. world w. cbn. repeat split. Qed.

Lemma with_inflight_world l w :
  cm (with_inflight l w) = cm w /\ pm (with_inflight l w) = pm w /\
  timers (with_inflight l w) = timers w /\
  listeners (with_inflight l w) = listeners w /\
  inflight (with_inflight l w) = l /\
  kept_timers (with_inflight l w) = kept_timers w.
Proof. world w. cbn. repeat split. Qed.

(* ================================================================== *)
(** ** Invariants of the event loop *)

Lemma ReplyCreate_cases id result w :
  step (ReplyCreate id result) w = w \/
  exists prompt images blank rest,
    take_request id (inflight w) = Some (KSendPrompt prompt images blank, rest) /\
    step (ReplyCreate id result) w =
    settle id (sendPrompt_resume prompt images blank result (with_inflight rest w)).
Proof.
  simpl. destruct (take_request id (inflight w)) as [[[p i b|] rest]|];
    [right | left | left]; try reflexivity.
  exists p, i, b, rest. split; reflexivity.
Qed.

Lemma ReplyCancel_cases id reply w :
  step (ReplyCancel id reply) w = w \/
  exists rest,
    take_request id (inflight w) = Some (KCancel, rest) /\
    step (ReplyCancel id reply) w =
    settle id (cancel_resume reply (with_inflight rest w)).
Proof.
  simpl. destruct (take_request id (inflight w)) as [[[p i b|] rest]|];
    [left | right | left]; try reflexivity.
  exists rest. split; reflexivity.
Qed.

Lemma Refuse_cases id reason w :
  step (Refuse id reason) w = w \/
  exists k rest,
    take_request id (inflight w) = Some (k, rest) /\
    step (Refuse id reason) w =
    settle id (Rejected reason, with_inflight rest w).
Proof.
  simpl. destruct (take_request id (inflight w)) as [[[p i b|] rest]|];
    [right | right | left]; try reflexivity.
  - exists (KSendPrompt p i b), rest. split; reflexivity.
  - exists KCancel, rest. split; reflexivity.
Qed.

(** A refused request changes nothing but the pending requests and the
    log. *)
Lemma refused_world id reason rest w :
  let w' := settle id (Rejected reason, with_inflight rest w) in
  cm w' = cm w /\ pm w' = pm w /\ timers w' = timers w /\
  listeners w' = listeners w /\ inflight w' = rest /\
  nextTimer w' = nextTimer w /\ nextRequest w' = nextRequest w /\
  now w' = now w /\
  effects w' = effects w ++ [ Settle id (Rejected reason) ].
Proof. cbv zeta. world w. cbn. repeat split. Qed.

Lemma sendPrompt_resume_cases prompt images blank result w :
  (is_success result = true /\
   sendPrompt_resume prompt images blank result w =
   (Fulfilled, sendPrompt_success prompt images blank result w)) \/
  (is_success result = false /\
   sendPrompt_resume prompt images blank result w =
   (Fulfilled, sendPrompt_failure result w)).
Proof.
  unfold sendPrompt_resume. destruct (is_success result); [left | right];
    split; reflexivity.
Qed.

(** How a turn of the loop moves [state] and [error]. *)
Lemma step_state_error e w :
  (state (step e w) = state w /\ error (cm (step e w)) = error (cm w)) \/
  (state (step e w) = CREATE_LOADING /\ error (cm (step e w)) = None) \/
  (state (step e w) = PROMPT /\ error (cm (step e w)) = error (cm w)) \/
  (state (step e w) = ERROR /\ error (cm (step e w)) <> None).
Proof.
  destruct e as [p i b| | | |id result|id reply|m pr|ms|id reason].
  - right; left. unfold state. simpl step.
    rewrite sendPrompt_call_cm. split; reflexivity.
  - left. unfold state. simpl step.
    destruct (cancel_call_world w) as (-> & _). split; reflexivity.
  - left. unfold state. simpl step. rewrite cleanup_cm. split; reflexivity.
  - left. simpl step.
    destruct (listenForPromptProgress_world w) as (A & B & _). split; assumption.
  - destruct (ReplyCreate_cases id result w)
      as [->|(p & i & b & rest & _ & ->)]; [left; split; reflexivity|].
    unfold state.
    destruct (settle_world id
                (sendPrompt_resume p i b result (with_inflight rest w)))
      as (-> & _).
    destruct (with_inflight_world rest w) as (Hcm & _).
    destruct (sendPrompt_resume_cases p i b result (with_inflight rest w))
      as [[_ ->]|[_ ->]]; simpl snd.
    + right; right; left. rewrite sendPrompt_success_cm, Hcm.
      split; reflexivity.
    + right; right; right. rewrite sendPrompt_failure_cm.
      split; [reflexivity | discriminate].
  - destruct (ReplyCancel_cases id reply w) as [->|(rest & _ & ->)];
      [left; split; reflexivity|].
    right; right; left. unfold state.
    destruct (settle_world id (cancel_resume reply (with_inflight rest w)))
      as (-> & _).
    rewrite cancel_resume_cm.
    destruct (with_inflight_world rest w) as (-> & _). split; reflexivity.
  - left. simpl step.
    destruct (notify_untouched m pr w) as (A & B & _). split; assumption.
  - left. simpl step.
    destruct (elapse_untouched ms w) as (A & B & _). split; assumption.
  - destruct (Refuse_cases id reason w) as [->|(k & rest & _ & ->)];
      [left; split; reflexivity|].
    left. unfold state.
    destruct (refused_world id reason rest w) as (-> & _). split; reflexivity.
Qed.

Lemma step_error_inv e w : error_inv w -> error_inv (step e w).
Proof.
  unfold error_inv. intros (H1 & H2 & H3).
  destruct (step_state_error e w)
    as [[A B]|[[A B]|[[A B]|[A B]]]]; rewrite A;
    try rewrite B; repeat split; try congruence; try assumption.
Qed.

Lemma step_listener_inv e w : listener_inv w -> listener_inv (step e w).
Proof.
  unfold listener_inv. intros H.
  destruct e as [p i b| | | |id result|id reply|m pr|ms|id reason].
  - simpl step. rewrite sendPrompt_call_cm. cbn [cleanupListener].
    destruct (sendPrompt_call_world p i b w) as (_ & _ & -> & _). assumption.
  - simpl step. destruct (cancel_call_world w) as (-> & _ & _ & -> & _).
    assumption.
  - simpl step. intros _.
    destruct (cleanup_world w) as (_ & _ & _ & _ & _ & _ & _ & ->).
    destruct (cleanupListener (cm w)); [reflexivity | apply H; reflexivity].
  - simpl step.
    destruct (listenForPromptProgress_world w) as (_ & _ & -> & _).
    discriminate.
  - destruct (ReplyCreate_cases id result w)
      as [->|(p & i & b & rest & _ & ->)]; [assumption|].
    destruct (settle_world id
                (sendPrompt_resume p i b result (with_inflight rest w)))
      as (-> & _ & _ & -> & _).
    destruct (with_inflight_world rest w) as (Hcm & _ & _ & Hl & _).
    destruct (sendPrompt_resume_cases p i b result (with_inflight rest w))
      as [[_ ->]|[_ ->]]; simpl snd.
    + rewrite sendPrompt_success_cm. cbn [cleanupListener].
      destruct (sendPrompt_success_world p i b result (with_inflight rest w))
        as (_ & -> & _).
      rewrite Hcm, Hl. assumption.
    + rewrite sendPrompt_failure_cm. cbn [cleanupListener].
      destruct (sendPrompt_failure_world result (with_inflight rest w))
        as (_ & -> & _).
      rewrite Hcm, Hl. assumption.
  - destruct (ReplyCancel_cases id reply w) as [->|(rest & _ & ->)];
      [assumption|].
    destruct (settle_world id (cancel_resume reply (with_inflight rest w)))
      as (-> & _ & _ & -> & _).
    rewrite cancel_resume_cm. cbn [cleanupListener].
    destruct (cancel_resume_world reply (with_inflight rest w)) as (_ & -> & _).
    destruct (with_inflight_world rest w) as (-> & _ & _ & -> & _).
    assumption.
  - simpl step.
    destruct (notify_untouched m pr w) as (_ & _ & -> & _ & -> & _). assumption.
  - simpl step.
    destruct (elapse_untouched ms w) as (_ & _ & -> & _ & -> & _). assumption.
  - destruct (Refuse_cases id reason w) as [->|(k & rest & _ & ->)];
      [assumption|].
    destruct (refused_world id reason rest w) as (-> & _ & _ & -> & _).
    assumption.
Qed.

Lemma untouched_guard_inv w w' : untouched w w' -> guard_inv w -> guard_inv w'.
Proof.
  intros (_ & _ & _ & Hh & _ & _ & Hincl) Hg t Ht Hcb.
  rewrite Hh. apply Hg; [apply Hincl; assumption | assumption].
Qed.

Lemma kept_guard_inv w w' :
  guard_inv w -> timers w' = kept_timers w -> guard_inv w'.
Proof.
  intros Hg Ht t Hin Hcb. rewrite Ht in Hin.
  exfalso. exact (kept_timers_no_guard w Hg t Hin Hcb).
Qed.

Lemma guard_inv_with_inflight rest w : guard_inv w -> guard_inv (with_inflight rest w).
Proof.
  intros Hg t Ht Hcb.
  destruct (with_inflight_world rest w) as (-> & _ & Htm & _).
  rewrite Htm in Ht. apply Hg; assumption.
Qed.

Lemma step_guard_inv e w : guard_inv w -> guard_inv (step e w).
Proof.
  intros Hg.
  destruct e as [p i b| | | |id result|id reply|m pr|ms|id reason].
  - simpl step. intros t Ht Hcb.
    rewrite sendPrompt_call_cm. cbn [slowConnectionTimer].
    rewrite set_state_loading_handle.
    destruct (sendPrompt_call_world p i b w) as (_ & _ & _ & Htm & _).
    rewrite Htm in Ht. apply in_app_or in Ht. destruct Ht as [Ht|Ht].
    + exfalso. exact (kept_timers_no_guard w Hg t Ht Hcb).
    + unfold slow_schedule in Ht. simpl in Ht.
      destruct Ht as [<-|[<-|[<-|[<-|[<-|[<-|[]]]]]]];
        simpl in Hcb; try discriminate. reflexivity.
  - simpl step. intros t Ht Hcb.
    destruct (cancel_call_world w) as (-> & _ & Htm & _).
    rewrite Htm in Ht. apply Hg; assumption.
  - simpl step. apply kept_guard_inv with (w := w); [assumption|].
    apply (cleanup_world w).
  - simpl step. intros t Ht Hcb.
    destruct (listenForPromptProgress_world w) as (_ & _ & _ & -> & _ & _ & Htm).
    rewrite Htm in Ht. apply Hg; assumption.
  - destruct (ReplyCreate_cases id result w)
      as [->|(p & i & b & rest & _ & ->)]; [assumption|].
    pose proof (guard_inv_with_inflight rest w Hg) as Hg'.
    intros t Ht Hcb.
    destruct (settle_world id
                (sendPrompt_resume p i b result (with_inflight rest w)))
      as (Hcm & _ & Htm & _).
    rewrite Htm in Ht. exfalso. revert Ht.
    destruct (sendPrompt_resume_cases p i b result (with_inflight rest w))
      as [[_ ->]|[_ ->]]; simpl snd; intros Ht.
    + destruct (sendPrompt_success_world p i b result (with_inflight rest w))
        as (_ & _ & _ & Hts).
      rewrite Hts in Ht. apply in_app_or in Ht. destruct Ht as [Ht|Ht].
      * exact (kept_timers_no_guard _ Hg' t Ht Hcb).
      * simpl in Ht. destruct Ht as [<-|[<-|[]]]; simpl in Hcb; discriminate.
    + destruct (sendPrompt_failure_world result (with_inflight rest w))
        as (_ & _ & _ & Hts).
      rewrite Hts in Ht. exact (kept_timers_no_guard _ Hg' t Ht Hcb).
  - destruct (ReplyCancel_cases id reply w) as [->|(rest & _ & ->)];
      [assumption|].
    pose proof (guard_inv_with_inflight rest w Hg) as Hg'.
    intros t Ht Hcb.
    destruct (settle_world id (cancel_resume reply (with_inflight rest w)))
      as (_ & _ & Htm & _).
    rewrite Htm in Ht.
    destruct (cancel_resume_world reply (with_inflight rest w))
      as (_ & _ & _ & _ & Hts).
    rewrite Hts in Ht. exfalso. exact (kept_timers_no_guard _ Hg' t Ht Hcb).
  - simpl step. eapply untouched_guard_inv; [apply notify_untouched | assumption].
  - simpl step. eapply untouched_guard_inv; [apply elapse_untouched | assumption].
  - destruct (Refuse_cases id reason w) as [->|(k & rest & _ & ->)];
      [assumption|].
    intros t Ht Hcb.
    destruct (refused_world id reason rest w) as (-> & _ & Htm & _).
    rewrite Htm in Ht. apply Hg; assumption.
Qed.

Lemma step_strict_inv e w :
  sequential e w = true -> strict_inv w -> strict_inv (step e w).
Proof.
  unfold strict_inv. intros Hseq (Herr & Hfl).
  destruct e as [p i b| | | |id result|id reply|m pr|ms|id reason].
  - simpl in Hseq. simpl step. unfold state.
    rewrite sendPrompt_call_cm. cbn [error createState].
    destruct (sendPrompt_call_world p i b w) as (_ & _ & _ & _ & Hin).
    split; [congruence|]. right. split; [reflexivity|].
    destruct (inflight w); [|discriminate].
    exists (nextRequest w), p, i, b. exact Hin.
  - discriminate.
  - simpl step. unfold state in *. rewrite cleanup_cm. cbn [error createState].
    destruct (cleanup_world w) as (_ & -> & _). split; assumption.
  - simpl step.
    destruct (listenForPromptProgress_world w) as (-> & -> & _ & _ & _ & -> & _).
    split; assumption.
  - destruct (ReplyCreate_cases id result w)
      as [->|(p & i & b & rest & Htake & ->)]; [split; assumption|].
    destruct Hfl as [Hfl|(Hnone & id0 & p0 & i0 & b0 & Hfl)];
      rewrite Hfl in Htake; simpl in Htake; [discriminate|].
    destruct (Pos.eqb id0 id); [|discriminate].
    inversion Htake; subst; clear Htake.
    unfold state.
    destruct (settle_world id
                (sendPrompt_resume p i b result (with_inflight [] w)))
      as (-> & _ & _ & _ & ->).
    destruct (with_inflight_world [] w) as (Hcm & _ & _ & _ & Hin & _).
    destruct (sendPrompt_resume_cases p i b result (with_inflight [] w))
      as [[_ ->]|[_ ->]]; simpl snd.
    + rewrite sendPrompt_success_cm. cbn [error createState].
      destruct (sendPrompt_success_world p i b result (with_inflight [] w))
        as (_ & _ & -> & _).
      rewrite Hcm, Hin. split; [congruence | left; reflexivity].
    + rewrite sendPrompt_failure_cm. cbn [error createState].
      destruct (sendPrompt_failure_world result (with_inflight [] w))
        as (_ & _ & -> & _).
      rewrite Hin. split; [reflexivity | left; reflexivity].
  - destruct (ReplyCancel_cases id reply w) as [->|(rest & Htake & _)];
      [split; assumption|].
    exfalso.
    destruct Hfl as [Hfl|(Hnone & id0 & p0 & i0 & b0 & Hfl)];
      rewrite Hfl in Htake; simpl in Htake; [discriminate|].
    destruct (Pos.eqb id0 id); discriminate.
  - simpl step.
    destruct (notify_untouched m pr w) as (-> & -> & _ & _ & _ & -> & _).
    split; assumption.
  - simpl step.
    destruct (elapse_untouched ms w) as (-> & -> & _ & _ & _ & -> & _).
    split; assumption.
  - destruct (Refuse_cases id reason w) as [->|(k & rest & Htake & ->)];
      [split; assumption|].
    destruct (refused_world id reason rest w) as (Hcm & _ & _ & _ & Hin & _).
    unfold state. rewrite Hcm, Hin. split; [exact Herr|].
    destruct Hfl as [Hfl|(Hnone & id0 & p0 & i0 & b0 & Hfl)];
      rewrite Hfl in Htake; simpl in Htake; [discriminate|].
    destruct (Pos.eqb id0 id); [|discriminate].
    inversion Htake; subst. left; reflexivity.
Qed.

Lemma run_preserves (P : World -> Prop) :
  (forall e w, P w -> P (step e w)) ->
  forall evs w, P w -> P (run_events evs w).
Proof.
  intros Hstep evs. induction evs as [|e evs IH]; intros w Hw; simpl.
  - assumption.
  - apply IH. apply Hstep. assumption.
Qed.

Lemma run_strict_inv evs :
  forall w, sequential_from w evs = true -> strict_inv w -> strict_inv (run_events evs w).
Proof.
  induction evs as [|e evs IH]; intros w Hseq Hw; simpl in *.
  - assumption.
  - apply andb_true_iff in Hseq. destruct Hseq as [He Hrest].
    apply IH; [assumption|]. apply step_strict_inv; assumption.
Qed.

Lemma construct_invariants owner :
  error_inv (construct owner) /\ listener_inv (construct owner) /\
  guard_inv (construct owner) /\ strict_inv (construct owner).
Proof.
  unfold error_inv, listener_inv, guard_inv, strict_inv, state. cbn.
  repeat split; try congruence; try discriminate.
  - intros t [].
  - left. reflexivity.
Qed.

Lemma reachable_invariants w :
  reachable w -> error_inv w /\ listener_inv w /\ guard_inv w.
Proof.
  intros (owner & evs & ->).
  destruct (construct_invariants owner) as (A & B & C & _).
  split; [|split].
  - apply (run_preserves error_inv step_error_inv); assumption.
  - apply (run_preserves listener_inv step_listener_inv); assumption.
  - apply (run_preserves guard_inv step_guard_inv); assumption.
Qed.

Lemma cleanup_twice w : cleanup (cleanup w) = cleanup w.
Proof. world w. destruct cl as [[]|], sl; reflexivity. Qed.

(* ================================================================== *)
(** ** Replies to [sendPrompt] *)

Lemma is_success_true result p :
  success result = true ->
  option_map projectPath (response result) = Some p ->
  p <> "" ->
  is_success result = true.
Proof.
  intros Hs Hp Hne. unfold is_success. rewrite Hs. simpl.
  change (truthy (option_map projectPath (response result)) = true).
  rewrite Hp. destruct p; [congruence | reflexivity].
Qed.

Lemma is_success_false_iff result : is_success result = false <-> failed result.
Proof.
  unfold is_success, failed.
  destruct result as [[] [[[|ch pp] c]|] e]; simpl; split; intros H;
    try reflexivity; try discriminate; try tauto;
    try (destruct H as [H|[H|H]]; discriminate).
Qed.

Lemma or_else_spec (a : option string) (b : string) :
  or_else a b =
  match a with
  | Some e => if String.eqb e "" then b else e
  | None => b
  end.
Proof. destruct a as [[|c e]|]; reflexivity. Qed.

Lemma sendPrompt_resume_success prompt images blank result w :
  is_success result = true ->
  sendPrompt_resume prompt images blank result w =
  (Fulfilled, sendPrompt_success prompt images blank result w).
Proof. intros H. unfold sendPrompt_resume. rewrite H. reflexivity. Qed.

Lemma sendPrompt_resume_failure prompt images blank result w :
  is_success result = false ->
  sendPrompt_resume prompt images blank result w =
  (Fulfilled, sendPrompt_failure result w).
Proof. intros H. unfold sendPrompt_resume. rewrite H. reflexivity. Qed.

(** C1: when the backend answers a [sendPrompt] call with [success] true
    and a non-empty project path [p], then, whatever ran while the call
    was pending, once the call resolves the state is [PROMPT] and the
    active project of the owning manager is the record with path [p],
    name "New Project", url "http://localhost:3000" and the commands
    npm install / npm run dev / npm run build. *)
Theorem sendPrompt_success_installs_project
  (prompt : string) (images : list ImageMessageContext) (blank : bool)
  (result : CreateProjectResponse) (p : string)
  (evs : list Event) (w : World) :
  success result = true ->
  option_map projectPath (response result) = Some p ->
  p <> "" ->
  let r := sendPrompt_resume prompt images blank result
             (run_events evs (sendPrompt_call prompt images blank w)) in
  fst r = Fulfilled /\
  state (snd r) = PROMPT /\
  project (pm (snd r)) = Some (new_project_at p).
Proof.
  intros Hs Hp Hne r. subst r.
  rewrite sendPrompt_resume_success by (eapply is_success_true; eassumption).
  simpl fst. simpl snd. split; [reflexivity|]. split.
  - unfold state. rewrite sendPrompt_success_cm. reflexivity.
  - match goal with
    | |- project (pm (sendPrompt_success ?a ?b ?c ?d ?e)) = _ =>
        destruct (sendPrompt_success_world a b c d e) as (-> & _)
    end.
    rewrite Hp. reflexivity.
Qed.

Lemma sendPrompt_success_installs_project_witness :
  let result := created_at "/p" in
  let r := sendPrompt_resume "x" [] false result
             (run_events [Elapse 15000; PromptProgress "m" 42]
                  (sendPrompt_call "x" [] false (construct sample_owner))) in
  success result = true /\
  option_map projectPath (response result) = Some "/p" /\
  "/p" <> "" /\
  fst r = Fulfilled /\
  state (snd r) = PROMPT /\
  project (pm (snd r)) = Some (new_project_at "/p").
Proof.
  cbv zeta.
  split; [reflexivity|]. split; [reflexivity|]. split; [discriminate|].
  apply (sendPrompt_success_installs_project "x" [] false (created_at "/p") "/p");
    [reflexivity | reflexivity | discriminate].
Defined.

(** C2, as the code has it: a reply is treated as a failure exactly when
    its [success] flag is false or its project path is missing or empty;
    on failure, once the call resolves, the state is [ERROR] and [error]
    is the reply's error string when that string is not empty, and the
    generic message "Failed to create project" when the reply has no
    error string or an empty one. *)
Theorem sendPrompt_failure_records_error
  (prompt : string) (images : list ImageMessageContext) (blank : bool)
  (result : CreateProjectResponse) (evs : list Event) (w : World) :
  let r := sendPrompt_resume prompt images blank result
             (run_events evs (sendPrompt_call prompt images blank w)) in
  (failed result ->
   state (snd r) = ERROR /\
   error (cm (snd r)) =
   Some (match resp_error result with
         | Some e => if String.eqb e "" then generic_error else e
         | None => generic_error
         end)) /\
  (~ failed result -> state (snd r) = PROMPT).
Proof.
  intros r. subst r. split.
  - intros Hf. apply is_success_false_iff in Hf.
    rewrite sendPrompt_resume_failure by assumption.
    simpl snd. unfold state. rewrite sendPrompt_failure_cm.
    cbn [createState error]. rewrite or_else_spec.
    split; reflexivity.
  - intros Hnf.
    assert (Hs : is_success result = true).
    { destruct (is_success result) eqn:E; [reflexivity|].
      exfalso. apply Hnf. apply is_success_false_iff. assumption. }
    rewrite sendPrompt_resume_success by assumption.
    simpl snd. unfold state. rewrite sendPrompt_success_cm. reflexivity.
Qed.

Lemma sendPrompt_failure_records_error_witness :
  let result := failed_with (Some "disk full") in
  let r := sendPrompt_resume "x" [] false result
             (run_events [] (sendPrompt_call "x" [] false (construct sample_owner))) in
  failed result /\
  state (snd r) = ERROR /\
  error (cm (snd r)) = Some "disk full".
Proof.
  cbv zeta. split; [left; reflexivity|].
  apply (proj1 (sendPrompt_failure_records_error
                  "x" [] false (failed_with (Some "disk full")) []
                  (construct sample_owner))).
  left; reflexivity.
Defined.

(** C2 as the claim is worded fails on a reply that does carry an error
    string, the empty one: the recorded error is not that string. *)
Lemma sendPrompt_empty_error_not_recorded :
  let result := failed_with (Some "") in
  let w' := snd (sendPrompt "x" [] false result (construct sample_owner)) in
  failed result /\
  state w' = ERROR /\
  resp_error result = Some "" /\
  error (cm w') = Some "Failed to create project" /\
  error (cm w') <> resp_error result.
Proof.
  cbv zeta. split; [left; reflexivity|].
  split; [reflexivity|]. split; [reflexivity|]. split; [reflexivity|].
  discriminate.
Qed.

(** C10: when a failing reply carries the empty string as its error, the
    recorded error is the generic "Failed to create project", not the
    empty string: the fallback is taken on any falsy error value. *)
Theorem empty_error_string_falls_back
  (prompt : string) (images : list ImageMessageContext) (blank : bool)
  (result : CreateProjectResponse) (evs : list Event) (w : World) :
  failed result ->
  resp_error result = Some "" ->
  let r := sendPrompt_resume prompt images blank result
             (run_events evs (sendPrompt_call prompt images blank w)) in
  error (cm (snd r)) = Some "Failed to create project" /\
  error (cm (snd r)) <> Some "".
Proof.
  intros Hf He r. subst r. apply is_success_false_iff in Hf.
  rewrite sendPrompt_resume_failure by assumption.
  simpl snd. rewrite sendPrompt_failure_cm. cbn [error]. rewrite He.
  split; [reflexivity | discriminate].
Qed.

Lemma empty_error_string_falls_back_witness :
  let result := failed_with (Some "") in
  let r := sendPrompt_resume "x" [] true result
             (run_events [PromptProgress "m" 42]
                  (sendPrompt_call "x" [] true (construct sample_owner))) in
  failed result /\
  resp_error result = Some "" /\
  error (cm (snd r)) = Some "Failed to create project" /\
  error (cm (snd r)) <> Some "".
Proof.
  cbv zeta. split; [left; reflexivity|]. split; [reflexivity|].
  apply (empty_error_string_falls_back "x" [] true (failed_with (Some "")));
    [left; reflexivity | reflexivity].
Defined.

(* ================================================================== *)
(** ** The [error] field along runs *)

(** C3, as the code has it: in every state reachable by any sequence of
    the operations, [error] is non-null only when the state is [ERROR] or
    [PROMPT], never while [CREATE_LOADING]; along sequences that never
    call [cancel] and start a [sendPrompt] only when none is pending,
    [error] is non-null only when the state is [ERROR]; and [error] is
    null right after the start of every [sendPrompt] attempt. *)
Theorem error_only_after_failure
  (owner : ProjectsManager) (evs : list Event) :
  let w := run_events evs (construct owner) in
  (error (cm w) <> None -> state w = ERROR \/ state w = PROMPT) /\
  (sequential_from (construct owner) evs = true ->
   error (cm w) <> None -> state w = ERROR) /\
  (forall prompt images blank,
     error (cm (step (CallSendPrompt prompt images blank) w)) = None).
Proof.
  intros w. split; [|split].
  - intros He.
    assert (Hinv : error_inv w).
    { apply (run_preserves error_inv step_error_inv).
      apply construct_invariants. }
    destruct Hinv as (H1 & H2 & _).
    destruct (state w) eqn:Hst.
    + right; reflexivity.
    + congruence.
    + exfalso. apply He. apply H1. reflexivity.
    + left; reflexivity.
  - intros Hseq He.
    assert (Hinv : strict_inv w).
    { apply run_strict_inv; [assumption | apply construct_invariants]. }
    destruct Hinv as (H1 & _). apply H1. assumption.
  - intros prompt images blank. simpl step.
    rewrite sendPrompt_call_cm. reflexivity.
Qed.

Lemma error_only_after_failure_witness :
  let evs := [ CallSendPrompt "x" [] false;
               Elapse 15000;
               ReplyCreate 1%positive (failed_with (Some "disk full"));
               CallCleanup ] in
  let w := run_events evs (construct sample_owner) in
  sequential_from (construct sample_owner) evs = true /\
  error (cm w) <> None /\
  state w = ERROR.
Proof.
  cbv zeta. split; [reflexivity|]. split; [discriminate|].
  apply (proj1 (proj2 (error_only_after_failure sample_owner
           [ CallSendPrompt "x" [] false;
             Elapse 15000;
             ReplyCreate 1%positive (failed_with (Some "disk full"));
             CallCleanup ])));
    [reflexivity | discriminate].
Defined.

(** C3 as the claim is worded fails: after a failed attempt, [cancel]
    moves the state to [PROMPT] and the error stays. *)
Lemma error_survives_cancel :
  let w := run_events failed_then_cancelled (construct sample_owner) in
  reachable w /\
  error (cm w) = Some "disk full" /\
  state w = PROMPT /\
  ~ (error (cm w) <> None -> state w = ERROR).
Proof.
  cbv zeta. split; [exists sample_owner, failed_then_cancelled; reflexivity|].
  split; [reflexivity|]. split; [reflexivity|].
  intros H. assert (Hs : PROMPT = ERROR) by (apply H; discriminate).
  discriminate.
Qed.

(* ================================================================== *)
(** ** The slow-connection heartbeat *)

Lemma fire_slow_message t canned w :
  callback t = SlowMessageCb canned ->
  cm (fire t w) =
  if CreateState_eqb (state w) CREATE_LOADING
  then {| createState := createState (cm w);
          progress := progress (cm w) + 10;
          message := Some canned;
          error := error (cm w);
          cleanupListener := cleanupListener (cm w);
          slowConnectionTimer := slowConnectionTimer (cm w) |}
  else cm w.
Proof.
  intros Hcb. unfold fire, andThen. rewrite Hcb.
  world w. unfold state. cbn.
  destruct (CreateState_eqb st CREATE_LOADING); reflexivity.
Qed.

(** C4, as the code has it: entering [CREATE_LOADING] schedules the five
    canned messages at 15s, 30s, 45s, 60s and 75s; what such a callback
    does is decided by the state at the time it fires, not by what
    happened since it was scheduled.  When it fires while the state is
    not [CREATE_LOADING] it changes neither [message] nor [progress];
    when it fires while the state is [CREATE_LOADING] -- also after the
    state has left [CREATE_LOADING] and a later attempt has entered it
    again -- it overwrites [message] with its canned string and adds 10
    to [progress], exactly 10 where JavaScript adds exactly. *)
Theorem slow_message_decided_at_fire_time :
  (forall w, timers (set_state CREATE_LOADING w) =
             kept_timers w ++ slow_schedule (nextTimer w) (now w)) /\
  (forall t canned w,
     callback t = SlowMessageCb canned ->
     state w <> CREATE_LOADING ->
     message (cm (fire t w)) = message (cm w) /\
     progress (cm (fire t w)) = progress (cm w)) /\
  (forall t canned w,
     callback t = SlowMessageCb canned ->
     state w = CREATE_LOADING ->
     message (cm (fire t w)) = Some canned /\
     (exact_sum (progress (cm w)) 10 ->
      progress (cm (fire t w)) = progress (cm w) + 10)).
Proof.
  split; [exact set_state_loading_timers|]. split.
  - intros t canned w Hcb Hst.
    rewrite (fire_slow_message t canned w Hcb).
    apply CreateState_eqb_neq in Hst. rewrite Hst. split; reflexivity.
  - intros t canned w Hcb Hst.
    rewrite (fire_slow_message t canned w Hcb).
    apply CreateState_eqb_eq in Hst. rewrite Hst.
    split; [reflexivity | intros _; reflexivity].
Qed.

Lemma slow_message_decided_at_fire_time_witness :
  let t := {| timer_id := 1%positive; due := 15000;
              callback := SlowMessageCb "Finalizing layout..." |} in
  (In t (timers retried_world) /\
   state retried_world = CREATE_LOADING /\
   exact_sum (progress (cm retried_world)) 10 /\
   message (cm (fire t retried_world)) = Some "Finalizing layout..." /\
   progress (cm (fire t retried_world)) = progress (cm retried_world) + 10) /\
  (In t (timers first_attempt_failed) /\
   state first_attempt_failed <> CREATE_LOADING /\
   message (cm (fire t first_attempt_failed))
   = message (cm first_attempt_failed) /\
   progress (cm (fire t first_attempt_failed))
   = progress (cm first_attempt_failed)).
Proof.
  assert (Hex : exact_sum (progress (cm retried_world)) 10).
  { vm_compute. repeat split; discriminate. }
  cbv zeta. split.
  - split; [vm_compute; left; reflexivity|]. split; [vm_compute; reflexivity|].
    split; [exact Hex|].
    destruct (proj2 (proj2 slow_message_decided_at_fire_time)
                {| timer_id := 1%positive; due := 15000;
                   callback := SlowMessageCb "Finalizing layout..." |}
                "Finalizing layout..." retried_world eq_refl
                ltac:(vm_compute; reflexivity)) as [Hm Hp].
    split; [exact Hm | exact (Hp Hex)].
  - split; [vm_compute; left; reflexivity|]. split; [vm_compute; discriminate|].
    apply (proj1 (proj2 slow_message_decided_at_fire_time)
             {| timer_id := 1%positive; due := 15000;
                callback := SlowMessageCb "Finalizing layout..." |}
             "Finalizing layout..." first_attempt_failed);
      [reflexivity | vm_compute; discriminate].
Defined.

(** C4 as the claim is worded fails: a callback scheduled in
    [CREATE_LOADING] whose state has left it -- the attempt failed -- does
    write [message] and [progress] when it fires, if a new attempt has
    entered [CREATE_LOADING] by then. *)
Lemma slow_message_applies_after_reentry :
  let t := {| timer_id := 1%positive; due := 15000;
              callback := SlowMessageCb "Finalizing layout..." |} in
  (In t (timers loading_world) /\ state loading_world = CREATE_LOADING) /\
  (first_attempt_failed =
     run_events [ Elapse 1000; ReplyCreate 1%positive (failed_with None) ]
                loading_world /\
   In t (timers first_attempt_failed) /\
   state first_attempt_failed = ERROR) /\
  (retried_world =
     run_events [ Elapse 1000; CallSendPrompt "y" [] false ]
                first_attempt_failed /\
   In t (timers retried_world) /\
   message (cm retried_world) = None /\
   progress (cm retried_world) = 0) /\
  message (cm (fire t retried_world)) = Some "Finalizing layout..." /\
  progress (cm (fire t retried_world)) = 10 /\
  message (cm (elapse 13000 retried_world)) = Some "Finalizing layout..." /\
  progress (cm (elapse 13000 retried_world)) = 10.
Proof.
  cbv zeta.
  split; [split; [vm_compute; left; reflexivity | vm_compute; reflexivity]|].
  split; [split; [vm_compute; reflexivity
                 | split; [vm_compute; left; reflexivity
                          | vm_compute; reflexivity]]|].
  split; [split; [vm_compute; reflexivity
                 | split; [vm_compute; left; reflexivity
                          | split; vm_compute; reflexivity]]|].
  repeat split; vm_compute; reflexivity.
Qed.

(** The heartbeat of one undisturbed attempt: ten more at each of the five
    marks. *)
Example heartbeat_of_one_attempt :
  map (fun ms => let w := elapse ms loading_world in
                 (message (cm w), progress (cm w)))
      [14999; 15000; 30000; 45000; 60000; 75000; 1000000] =
  [ (None, 0);
    (Some "Finalizing layout...", 10);
    (Some "Drafting copy...", 20);
    (Some "Finalizing design...", 30);
    (Some "Completing setup...", 40);
    (Some "Starting project...", 50);
    (Some "Starting project...", 50) ].
Proof. reflexivity. Qed.

(** The timers of an attempt that ended are not cleared: they fire into
    the next attempt when it has started by then. *)
Example stale_timers_reach_the_next_attempt :
  state retried_world = CREATE_LOADING /\
  now retried_world = 2000 /\
  map (fun ms => let w := elapse ms retried_world in
                 (message (cm w), progress (cm w)))
      [12999; 13000; 15000] =
  [ (None, 0);
    (Some "Finalizing layout...", 10);
    (Some "Finalizing layout...", 20) ].
Proof. repeat split. Qed.

(* ================================================================== *)
(** ** [cancel] *)

(** C5, as the code has it: a [cancel] called while the state is
    [CREATE_LOADING] fulfils and leaves the state [PROMPT] whatever value
    its backend request resolves to -- a value that reports a failure
    included -- and whatever ran while it was pending.  When the request
    is refused instead, [cancel] rejects with the same reason and changes
    nothing: with nothing else running, the state is still
    [CREATE_LOADING]. *)
Theorem cancel_returns_to_prompt_unless_refused
  (outcome : Awaited JsValue) (evs : list Event) (w : World) :
  state w = CREATE_LOADING ->
  let w1 := run_events evs (cancel_call w) in
  match outcome with
  | Resolved reply =>
      fst (cancel_settled outcome w1) = Fulfilled /\
      state (snd (cancel_settled outcome w1)) = PROMPT
  | Refused reason =>
      fst (cancel_settled outcome w1) = Rejected reason /\
      snd (cancel_settled outcome w1) = w1 /\
      state (snd (cancel_settled outcome (cancel_call w))) = CREATE_LOADING
  end.
Proof.
  intros Hs w1. destruct outcome as [reply|reason]; cbn [cancel_settled].
  - split; [reflexivity|].
    unfold state. rewrite cancel_resume_cm. reflexivity.
  - split; [reflexivity|]. split; [reflexivity|].
    unfold cancel_refused. cbn [snd]. unfold state.
    destruct (cancel_call_world w) as (-> & _). exact Hs.
Qed.

Lemma cancel_returns_to_prompt_unless_refused_witness :
  let w1 := run_events [Elapse 15000] (cancel_call loading_world) in
  state loading_world = CREATE_LOADING /\
  (fst (cancel_settled (Resolved (JsBool false)) w1) = Fulfilled /\
   state (snd (cancel_settled (Resolved (JsBool false)) w1)) = PROMPT) /\
  (fst (cancel_settled (Refused "backend down") w1) = Rejected "backend down" /\
   snd (cancel_settled (Refused "backend down") w1) = w1 /\
   state (snd (cancel_settled (Refused "backend down")
                 (cancel_call loading_world))) = CREATE_LOADING).
Proof.
  assert (Hs : state loading_world = CREATE_LOADING)
    by (vm_compute; reflexivity).
  cbv zeta. split; [exact Hs|]. split.
  - apply (cancel_returns_to_prompt_unless_refused
             (Resolved (JsBool false)) [Elapse 15000] loading_world Hs).
  - apply (cancel_returns_to_prompt_unless_refused
             (Refused "backend down") [Elapse 15000] loading_world Hs).
Defined.

(** C5 as the claim is worded fails: when the backend refuses the
    cancellation request, [cancel] reports the failure to its caller and
    the state stays [CREATE_LOADING]. *)
Lemma cancel_refused_stays_loading :
  let r := cancel_settled (Refused "backend down")
             (cancel_call loading_world) in
  let w := run_events [ CallCancel; Refuse 2%positive "backend down" ]
                      loading_world in
  state loading_world = CREATE_LOADING /\
  fst r = Rejected "backend down" /\
  state (snd r) = CREATE_LOADING /\
  state w = CREATE_LOADING /\
  In (Settle 2%positive (Rejected "backend down")) (effects w) /\
  ~ (fst r = Fulfilled /\ state (snd r) = PROMPT).
Proof.
  cbv zeta. split; [vm_compute; reflexivity|]. split; [reflexivity|].
  split; [vm_compute; reflexivity|]. split; [vm_compute; reflexivity|].
  split.
  - vm_compute. right; right; right. left. reflexivity.
  - intros [H _]. discriminate.
Qed.



(* ================================================================== *)
(** ** [cleanup] *)

(** C6, as the code has it: [cleanup] called twice in a row from any
    reachable state completes; after it no listener is left on the
    progress channel, the stored detachment closure and timer handle are
    null, no guard timer is pending, and the second call changed nothing.
    The timers set without a stored handle are not cleared: every pending
    timer other than the one under the handle stays pending. *)
Theorem cleanup_twice_detaches (w : World) :
  reachable w ->
  let w' := cleanup (cleanup w) in
  w' = cleanup w /\
  listeners w' = 0%nat /\
  cleanupListener (cm w') = None /\
  slowConnectionTimer (cm w') = None /\
  (forall t, In t (timers w') -> callback t <> GuardCb) /\
  (forall t, In t (timers w) ->
             Some (timer_id t) <> slowConnectionTimer (cm w) ->
             In t (timers w')).
Proof.
  intros Hr. cbv zeta. rewrite cleanup_twice.
  destruct (reachable_invariants w Hr) as (_ & Hl & Hg).
  destruct (cleanup_world w) as (_ & _ & _ & _ & _ & _ & Htm & Hls).
  split; [reflexivity|]. split; [|split; [|split; [|split]]].
  - rewrite Hls. unfold listener_inv in Hl.
    destruct (cleanupListener (cm w)); [reflexivity | apply Hl; reflexivity].
  - rewrite cleanup_cm. reflexivity.
  - rewrite cleanup_cm. reflexivity.
  - intros t Ht. rewrite Htm in Ht. exact (kept_timers_no_guard w Hg t Ht).
  - intros t Ht Hne. rewrite Htm. unfold kept_timers.
    destruct (slowConnectionTimer (cm w)) as [id|]; [|assumption].
    apply filter_In. split; [assumption|].
    destruct (Pos.eqb (timer_id t) id) eqn:E; [|reflexivity].
    apply Pos.eqb_eq in E. congruence.
Qed.

Lemma cleanup_twice_detaches_witness :
  let w' := cleanup (cleanup loading_world) in
  reachable loading_world /\
  w' = cleanup loading_world /\
  listeners w' = 0%nat /\
  cleanupListener (cm w') = None /\
  slowConnectionTimer (cm w') = None /\
  (forall t, In t (timers w') -> callback t <> GuardCb) /\
  (forall t, In t (timers loading_world) ->
             Some (timer_id t) <> slowConnectionTimer (cm loading_world) ->
             In t (timers w')).
Proof.
  assert (Hr : reachable loading_world).
  { exists sample_owner, [ CallSendPrompt "x" [] false ]. reflexivity. }
  cbv zeta. split; [exact Hr|].
  apply (cleanup_twice_detaches loading_world Hr).
Defined.

(** C6 as the claim is worded fails: torn down twice while a prompt is
    pending, the manager still has its five slow-message timers pending,
    and the first of them still fires and writes [message] and
    [progress]. *)
Lemma cleanup_leaves_slow_timers_pending :
  let w' := cleanup (cleanup loading_world) in
  reachable loading_world /\
  listeners w' = 0%nat /\
  map (fun t => (due t, callback t)) (timers w') =
    [ (15000, SlowMessageCb "Finalizing layout...");
      (30000, SlowMessageCb "Drafting copy...");
      (45000, SlowMessageCb "Finalizing design...");
      (60000, SlowMessageCb "Completing setup...");
      (75000, SlowMessageCb "Starting project...") ] /\
  timers w' <> [] /\
  message (cm (elapse 15000 w')) = Some "Finalizing layout..." /\
  progress (cm (elapse 15000 w')) = 10.
Proof.
  cbv zeta.
  split; [exists sample_owner, [ CallSendPrompt "x" [] false ]; reflexivity|].
  split; [vm_compute; reflexivity|]. split; [vm_compute; reflexivity|].
  split; [vm_compute; discriminate|].
  split; vm_compute; reflexivity.
Qed.

(* ================================================================== *)
(** ** Progress notifications *)

Lemma onPromptProgress_cm m p w :
  cm (onPromptProgress m p w) =
  {| createState := createState (cm w);
     progress := p;
     message := Some m;
     error := error (cm w);
     cleanupListener := cleanupListener (cm w);
     slowConnectionTimer := slowConnectionTimer (cm w) |}.
Proof. world w. reflexivity. Qed.

Lemma deliver_sets n m p :
  forall w, (0 < n)%nat ->
            message (cm (deliver n m p w)) = Some m /\
            progress (cm (deliver n m p w)) = p.
Proof.
  induction n as [|n IH]; intros w Hn; [inversion Hn|].
  cbn [deliver]. unfold andThen. destruct n as [|n'].
  - cbn [deliver]. unfold skip. rewrite onPromptProgress_cm. split; reflexivity.
  - apply IH. apply Nat.lt_0_succ.
Qed.

(** C7: the handler of the progress channel sets [message] and
    [progress] to the notification's values with no test of any kind; so
    a notification the manager receives (it is subscribed) overwrites
    both at once, in any state, and leaves the state as it is. *)
Theorem progress_notification_overwrites (m : string) (p : Z) (w : World) :
  (message (cm (onPromptProgress m p w)) = Some m /\
   progress (cm (onPromptProgress m p w)) = p) /\
  ((0 < listeners w)%nat ->
   message (cm (step (PromptProgress m p) w)) = Some m /\
   progress (cm (step (PromptProgress m p) w)) = p /\
   state (step (PromptProgress m p) w) = state w).
Proof.
  split.
  - rewrite onPromptProgress_cm. split; reflexivity.
  - intros Hl. simpl step. unfold notify.
    destruct (deliver_sets (listeners w) m p w Hl) as [A B].
    split; [exact A|]. split; [exact B|].
    apply (deliver_untouched (listeners w) m p w).
Qed.

Lemma progress_notification_overwrites_witness :
  let w' := step (PromptProgress "m" 42) failed_world in
  (0 < listeners failed_world)%nat /\
  message (cm w') = Some "m" /\
  progress (cm w') = 42 /\
  state w' = state failed_world.
Proof.
  cbv zeta. split; [vm_compute; reflexivity|].
  apply (proj2 (progress_notification_overwrites "m" 42 failed_world)).
  vm_compute; reflexivity.
Defined.

(* ================================================================== *)
(** ** The start of [sendPrompt] *)

(** C8: up to the backend request, [sendPrompt] writes only [state] (now
    [CREATE_LOADING]) and [error] (now null): [progress] and [message]
    keep the values earlier attempts, timers and notifications left. *)
Theorem sendPrompt_start_keeps_progress_and_message
  (prompt : string) (images : list ImageMessageContext) (blank : bool)
  (w : World) :
  let w' := sendPrompt_call prompt images blank w in
  state w' = CREATE_LOADING /\
  error (cm w') = None /\
  progress (cm w') = progress (cm w) /\
  message (cm w') = message (cm w) /\
  cleanupListener (cm w') = cleanupListener (cm w) /\
  pm w' = pm w /\
  listeners w' = listeners w /\
  effects w' =
    effects w ++
    [ AnalyticsPromptCreate prompt blank;
      if blank
      then Invoke CREATE_NEW_BLANK_PROJECT None
      else Invoke CREATE_NEW_PROJECT_PROMPT (Some (prompt, images)) ].
Proof.
  cbv zeta. unfold state. rewrite sendPrompt_call_cm. cbn [createState error
    progress message cleanupListener].
  destruct (sendPrompt_call_world prompt images blank w) as (A & _ & B & _).
  repeat (split; [first [reflexivity | assumption]|]).
  world w. destruct blank, sl; cbn; rewrite <- app_assoc; reflexivity.
Qed.

(** Progress and message of a failed attempt are still there when the
    next attempt has started. *)
Example retry_starts_with_old_progress :
  let w := run_events [ CallSendPrompt "x" [] false;
                 PromptProgress "Building" 42;
                 ReplyCreate 1%positive (failed_with None);
                 CallSendPrompt "x" [] false ]
               (construct sample_owner) in
  state w = CREATE_LOADING /\ error (cm w) = None /\
  progress (cm w) = 42 /\ message (cm w) = Some "Building".
Proof. vm_compute. repeat split. Qed.

(* ================================================================== *)
(** * Further properties of the manager *)

(** ** Handles and counters *)

Lemma set_state_counters s w :
  nextRequest (set_state s w) = nextRequest w /\
  (s <> CREATE_LOADING -> nextTimer (set_state s w) = nextTimer w).
Proof.
  world w. split.
  - destruct s, sl; reflexivity.
  - intros Hs. destruct s, sl; try congruence; reflexivity.
Qed.

Lemma sendPrompt_call_counters prompt images blank w :
  let w' := sendPrompt_call prompt images blank w in
  nextTimer w' =
    Pos.succ (Pos.succ (Pos.succ (Pos.succ (Pos.succ (Pos.succ (nextTimer w)))))) /\
  nextRequest w' = Pos.succ (nextRequest w) /\
  effects w' =
    effects w ++
    [ AnalyticsPromptCreate prompt blank;
      if blank
      then Invoke CREATE_NEW_BLANK_PROJECT None
      else Invoke CREATE_NEW_PROJECT_PROMPT (Some (prompt, images)) ].
Proof.
  cbv zeta. world w.
  destruct blank, sl; cbn; rewrite <- app_assoc; repeat split.
Qed.

Lemma sendPrompt_success_counters prompt images blank result w :
  let w' := sendPrompt_success prompt images blank result w in
  nextTimer w' = Pos.succ (Pos.succ (nextTimer w)) /\
  nextRequest w' = nextRequest w /\
  now w' = now w /\
  pm w' = {| project := Some (createProject
                                (present (option_map projectPath (response result))));
             projectsTab := projectsTab (pm w);
             editorEngine := editorEngine (pm w);
             runner := runner (pm w) |}.
Proof.
  cbv zeta. world w. unfold sendPrompt_success.
  destruct (negb blank && truthy (response_content result)), ee, sl;
    cbn; repeat split.
Qed.

Lemma sendPrompt_success_effects prompt images blank result w :
  effects (sendPrompt_success prompt images blank result w) =
  effects w ++
  (if negb blank && truthy (response_content result) && editorEngine (pm w)
   then [ GenerateCreatedSuggestions prompt
            (present (response_content result)) images ]
   else []) ++
  [ AnalyticsSuccess ].
Proof.
  world w. unfold sendPrompt_success.
  destruct (negb blank && truthy (response_content result)), ee, sl;
    cbn; repeat rewrite <- app_assoc; reflexivity.
Qed.

Lemma sendPrompt_failure_counters result w :
  let w' := sendPrompt_failure result w in
  nextTimer w' = nextTimer w /\ nextRequest w' = nextRequest w /\
  now w' = now w /\
  effects w' =
    effects w ++
    [ AnalyticsError
        (Some (or_else (resp_error result) "Failed to create project")) ].
Proof. cbv zeta. world w. destruct sl; cbn; repeat split. Qed.

Lemma cancel_call_counters w :
  nextTimer (cancel_call w) = nextTimer w /\
  nextRequest (cancel_call w) = Pos.succ (nextRequest w) /\
  effects (cancel_call w) =
    effects w ++ [ Invoke CANCEL_CREATE_NEW_PROJECT_PROMPT None ].
Proof. world w. cbn. repeat split. Qed.

Lemma cancel_resume_counters reply w :
  let w' := snd (cancel_resume reply w) in
  nextTimer w' = nextTimer w /\ nextRequest w' = nextRequest w.
Proof. cbv zeta. world w. destruct sl; cbn; repeat split. Qed.

Lemma listenForPromptProgress_counters w :
  let w' := listenForPromptProgress w in
  nextTimer w' = nextTimer w /\ nextRequest w' = nextRequest w /\
  effects w' = effects w /\ pm w' = pm w /\
  progress (cm w') = progress (cm w) /\ message (cm w') = message (cm w).
Proof. cbv zeta. world w. cbn. repeat split. Qed.

Lemma settle_counters id r :
  nextTimer (settle id r) = nextTimer (snd r) /\
  nextRequest (settle id r) = nextRequest (snd r) /\
  now (settle id r) = now (snd r) /\
  effects (settle id r) = effects (snd r) ++ [ Settle id (fst r) ].
Proof. destruct r as [s w]. world w. cbn. repeat split. Qed.

Lemma with_inflight_counters l w :
  nextTimer (with_inflight l w) = nextTimer w /\
  nextRequest (with_inflight l w) = nextRequest w /\
  now (with_inflight l w) = now w /\
  effects (with_inflight l w) = effects w.
Proof. world w. cbn. repeat split. Qed.

(** What a fired callback leaves alone. *)
Lemma run_callback_frame cb w :
  let w' := run_callback cb w in
  nextTimer w' = nextTimer w /\ nextRequest w' = nextRequest w /\
  now w' = now w /\
  project (pm w') = project (pm w) /\
  editorEngine (pm w') = editorEngine (pm w) /\
  runner (pm w') = runner (pm w).
Proof.
  cbv zeta. world w. destruct cb; cbn.
  - destruct (CreateState_eqb st CREATE_LOADING); cbn; repeat split.
  - repeat split.
  - repeat split.
  - destruct rn; cbn; repeat split.
Qed.

Lemma fire_frame t w :
  let w' := fire t w in
  nextTimer w' = nextTimer w /\ nextRequest w' = nextRequest w /\
  now w' = Z.max (now w) (due t) /\
  project (pm w') = project (pm w) /\
  editorEngine (pm w') = editorEngine (pm w) /\
  runner (pm w') = runner (pm w).
Proof.
  cbv zeta. unfold fire, andThen.
  destruct (run_callback_frame (callback t)
              (with_now (Z.max (now (clearTimeout (timer_id t) w)) (due t))
                        (clearTimeout (timer_id t) w)))
    as (-> & -> & -> & -> & -> & ->).
  world w. cbn. repeat split.
Qed.

Lemma run_timers_frame fuel deadline :
  forall w,
    let w' := run_timers fuel deadline w in
    nextTimer w' = nextTimer w /\ nextRequest w' = nextRequest w /\
    project (pm w') = project (pm w) /\
    editorEngine (pm w') = editorEngine (pm w) /\
    runner (pm w') = runner (pm w).
Proof.
  induction fuel as [|fuel IH]; intros w; cbv zeta; simpl.
  - repeat split.
  - destruct (earliest (timers w)) as [t|]; [|repeat split].
    destruct (due t <=? deadline); [|repeat split].
    destruct (IH (fire t w)) as (-> & -> & -> & -> & ->).
    destruct (fire_frame t w) as (-> & -> & _ & -> & -> & ->).
    repeat split.
Qed.

Lemma with_now_frame t w :
  cm (with_now t w) = cm w /\ pm (with_now t w) = pm w /\
  timers (with_now t w) = timers w /\
  nextTimer (with_now t w) = nextTimer w /\
  nextRequest (with_now t w) = nextRequest w /\
  effects (with_now t w) = effects w /\
  inflight (with_now t w) = inflight w.
Proof. world w. cbn. repeat split. Qed.

Lemma elapse_frame ms w :
  let w' := elapse ms w in
  nextTimer w' = nextTimer w /\ nextRequest w' = nextRequest w /\
  project (pm w') = project (pm w) /\
  editorEngine (pm w') = editorEngine (pm w) /\
  runner (pm w') = runner (pm w).
Proof.
  cbv zeta. unfold elapse.
  destruct (with_now_frame (now w + Z.max 0 ms)
              (run_timers (List.length (timers w)) (now w + Z.max 0 ms) w))
    as (_ & -> & _ & -> & -> & _).
  apply run_timers_frame.
Qed.

Lemma onPromptProgress_frame m p w :
  let w' := onPromptProgress m p w in
  pm w' = pm w /\ now w' = now w /\ timers w' = timers w /\
  nextTimer w' = nextTimer w /\ nextRequest w' = nextRequest w /\
  effects w' = effects w.
Proof. cbv zeta. world w. cbn. repeat split. Qed.

Lemma deliver_frame n m p :
  forall w,
    let w' := deliver n m p w in
    pm w' = pm w /\ now w' = now w /\ timers w' = timers w /\
    nextTimer w' = nextTimer w /\ nextRequest w' = nextRequest w /\
    effects w' = effects w.
Proof.
  induction n as [|n IH]; intros w; cbv zeta; cbn [deliver].
  - unfold skip. repeat split.
  - unfold andThen.
    destruct (IH (onPromptProgress m p w)) as (-> & -> & -> & -> & -> & ->).
    apply onPromptProgress_frame.
Qed.

Lemma NoDup_map_filter {A B : Type} (g : A -> B) (f : A -> bool) (l : list A) :
  NoDup (map g l) -> NoDup (map g (filter f l)).
Proof.
  induction l as [|a l IH]; simpl; intros H; [constructor|].
  inversion H as [|x xs Hnin Hnd]; subst.
  destruct (f a); simpl; [|apply IH; assumption].
  constructor; [|apply IH; assumption].
  intros Hin. apply Hnin. apply in_map_iff in Hin.
  destruct Hin as (b & Hb & Hin). apply filter_In in Hin.
  apply in_map_iff. exists b. tauto.
Qed.

Lemma kept_timers_NoDup w :
  NoDup (map timer_id (timers w)) -> NoDup (map timer_id (kept_timers w)).
Proof.
  unfold kept_timers. destruct (slowConnectionTimer (cm w));
    [apply NoDup_map_filter | trivial].
Qed.

Lemma timer_ids_extend w w' news :
  timer_ids_inv w ->
  timers w' = kept_timers w ++ news ->
  NoDup (map timer_id news) ->
  (forall t, In t news ->
             (nextTimer w <= timer_id t < nextTimer w')%positive) ->
  (nextTimer w <= nextTimer w')%positive ->
  (forall h, slowConnectionTimer (cm w') = Some h ->
             (nextTimer w <= h < nextTimer w')%positive /\
             forall t, In t news -> timer_id t = h -> callback t = GuardCb) ->
  timer_ids_inv w'.
Proof.
  intros (Hnd & Hlt & _ & _) Htm Hnews Hfresh Hle Hh.
  assert (Hkept : forall t, In t (kept_timers w) ->
                            (timer_id t < nextTimer w)%positive).
  { intros t Ht. apply Hlt. apply kept_timers_incl. assumption. }
  unfold timer_ids_inv. rewrite Htm. split; [|split; [|split]].
  - rewrite map_app. apply NoDup_app;
      [apply kept_timers_NoDup; assumption | assumption |].
    intros a Ha Hb. apply in_map_iff in Ha. destruct Ha as (t & <- & Ht).
    apply in_map_iff in Hb. destruct Hb as (u & Hu & Hin).
    specialize (Hkept t Ht). specialize (Hfresh u Hin). lia.
  - intros t Ht. apply in_app_or in Ht. destruct Ht as [Ht|Ht].
    + specialize (Hkept t Ht). lia.
    + specialize (Hfresh t Ht). lia.
  - intros h Hs. specialize (Hh h Hs). lia.
  - intros t Ht Hs. destruct (Hh _ Hs) as [Hrange Hg].
    apply in_app_or in Ht. destruct Ht as [Ht|Ht].
    + specialize (Hkept t Ht). lia.
    + apply Hg; [assumption | reflexivity].
Qed.

Lemma timer_ids_filter (f : Timer -> bool) w w' :
  timer_ids_inv w ->
  timers w' = filter f (timers w) ->
  nextTimer w' = nextTimer w ->
  slowConnectionTimer (cm w') = slowConnectionTimer (cm w) ->
  timer_ids_inv w'.
Proof.
  intros (Hnd & Hlt & Hh & Hg) Htm Hnt Hs.
  unfold timer_ids_inv. rewrite Htm, Hnt, Hs. split; [|split; [|split]].
  - apply NoDup_map_filter. assumption.
  - intros t Ht. apply filter_In in Ht. apply Hlt. tauto.
  - assumption.
  - intros t Ht. apply filter_In in Ht. apply Hg. tauto.
Qed.

Lemma timer_ids_same w w' :
  timer_ids_inv w ->
  timers w' = timers w ->
  nextTimer w' = nextTimer w ->
  slowConnectionTimer (cm w') = slowConnectionTimer (cm w) ->
  timer_ids_inv w'.
Proof.
  intros (Hnd & Hlt & Hh & Hg) Htm Hnt Hs.
  unfold timer_ids_inv. rewrite Htm, Hnt, Hs. repeat split; assumption.
Qed.

Lemma fire_timer_ids t w : timer_ids_inv w -> timer_ids_inv (fire t w).
Proof.
  intros H.
  apply timer_ids_filter
    with (f := fun u => negb (Pos.eqb (timer_id u) (timer_id t))) (w := w).
  - assumption.
  - apply fire_timers.
  - apply (fire_frame t w).
  - apply (fire_untouched t w).
Qed.

Lemma run_timers_timer_ids fuel deadline :
  forall w, timer_ids_inv w -> timer_ids_inv (run_timers fuel deadline w).
Proof.
  induction fuel as [|fuel IH]; intros w H; simpl; [assumption|].
  destruct (earliest (timers w)) as [t|]; [|assumption].
  destruct (due t <=? deadline); [|assumption].
  apply IH. apply fire_timer_ids. assumption.
Qed.

Lemma slow_schedule_fresh h t0 :
  NoDup (map timer_id (slow_schedule h t0)) /\
  (forall t, In t (slow_schedule h t0) ->
     (h <= timer_id t <
      Pos.succ (Pos.succ (Pos.succ (Pos.succ (Pos.succ (Pos.succ h))))))%positive) /\
  (forall t, In t (slow_schedule h t0) ->
     timer_id t = Pos.succ (Pos.succ (Pos.succ (Pos.succ (Pos.succ h)))) ->
     callback t = GuardCb).
Proof.
  unfold slow_schedule. split; [|split].
  - simpl. repeat constructor; simpl; intuition lia.
  - intros t Ht. simpl in Ht.
    destruct Ht as [<-|[<-|[<-|[<-|[<-|[<-|[]]]]]]]; simpl; lia.
  - intros t Ht Hid. simpl in Ht.
    destruct Ht as [<-|[<-|[<-|[<-|[<-|[<-|[]]]]]]]; simpl in *;
      try reflexivity; lia.
Qed.

Lemma step_timer_ids_inv e w : timer_ids_inv w -> timer_ids_inv (step e w).
Proof.
  intros H.
  destruct e as [p i b| | | |id result|id reply|m pr|ms|id reason].
  - simpl step.
    destruct (sendPrompt_call_world p i b w) as (_ & _ & _ & Htm & _).
    destruct (sendPrompt_call_counters p i b w) as (Hnt & _).
    destruct (slow_schedule_fresh (nextTimer w) (now w)) as (A & B & C).
    apply timer_ids_extend
      with (w := w) (news := slow_schedule (nextTimer w) (now w));
      try assumption.
    + rewrite Hnt. assumption.
    + rewrite Hnt. lia.
    + intros h Hs. rewrite sendPrompt_call_cm in Hs.
      cbn [slowConnectionTimer] in Hs.
      rewrite set_state_loading_handle in Hs. inversion Hs; subst h.
      rewrite Hnt. split; [lia | assumption].
  - simpl step. destruct (cancel_call_world w) as (Hcm & _ & Htm & _).
    apply timer_ids_same with (w := w); try assumption.
    + apply cancel_call_counters.
    + rewrite Hcm. reflexivity.
  - simpl step.
    destruct (cleanup_world w) as (_ & _ & _ & _ & Hnt & _ & Htm & _).
    apply timer_ids_extend with (w := w) (news := []).
    + assumption.
    + rewrite app_nil_r. assumption.
    + constructor.
    + intros t [].
    + rewrite Hnt. lia.
    + intros h Hs. rewrite cleanup_cm in Hs. discriminate.
  - simpl step.
    destruct (listenForPromptProgress_world w)
      as (_ & _ & _ & Hs & _ & _ & Htm).
    apply timer_ids_same with (w := w); try assumption.
    apply listenForPromptProgress_counters.
  - destruct (ReplyCreate_cases id result w)
      as [->|(p & i & b & rest & _ & ->)]; [assumption|].
    destruct (with_inflight_world rest w) as (Hcm & _ & Htm & _ & _ & Hk).
    destruct (with_inflight_counters rest w) as (Hnt & _).
    set (w0 := with_inflight rest w) in *.
    destruct (settle_world id (sendPrompt_resume p i b result w0))
      as (Scm & _ & Stm & _).
    destruct (settle_counters id (sendPrompt_resume p i b result w0))
      as (Snt & _).
    destruct (sendPrompt_resume_cases p i b result w0) as [[_ E]|[_ E]];
      rewrite E in Scm, Stm, Snt |- *; simpl snd in Scm, Stm, Snt.
    + destruct (sendPrompt_success_world p i b result w0) as (_ & _ & _ & Hts).
      destruct (sendPrompt_success_counters p i b result w0) as (Hn2 & _).
      eapply timer_ids_extend with (w := w); [assumption | | | | |].
      * rewrite Stm, Hts, Hk. reflexivity.
      * simpl. repeat constructor; simpl; intuition lia.
      * rewrite Snt, Hn2, Hnt. intros t Ht. simpl in Ht.
        destruct Ht as [<-|[<-|[]]]; simpl; lia.
      * rewrite Snt, Hn2, Hnt. lia.
      * intros h Hs. rewrite Scm, sendPrompt_success_cm in Hs. discriminate.
    + destruct (sendPrompt_failure_world result w0) as (_ & _ & _ & Hts).
      destruct (sendPrompt_failure_counters result w0) as (Hn2 & _).
      eapply timer_ids_extend with (w := w) (news := []); [assumption | | | | |].
      * rewrite Stm, Hts, Hk, app_nil_r. reflexivity.
      * constructor.
      * intros t [].
      * rewrite Snt, Hn2, Hnt. lia.
      * intros h Hs. rewrite Scm, sendPrompt_failure_cm in Hs. discriminate.
  - destruct (ReplyCancel_cases id reply w) as [->|(rest & _ & ->)];
      [assumption|].
    destruct (with_inflight_world rest w) as (Hcm & _ & Htm & _ & _ & Hk).
    destruct (with_inflight_counters rest w) as (Hnt & _).
    set (w0 := with_inflight rest w) in *.
    destruct (settle_world id (cancel_resume reply w0)) as (Scm & _ & Stm & _).
    destruct (settle_counters id (cancel_resume reply w0)) as (Snt & _).
    destruct (cancel_resume_world reply w0) as (_ & _ & _ & _ & Hts).
    destruct (cancel_resume_counters reply w0) as (Hn2 & _).
    eapply timer_ids_extend with (w := w) (news := []); [assumption | | | | |].
    + rewrite Stm, Hts, Hk, app_nil_r. reflexivity.
    + constructor.
    + intros t [].
    + rewrite Snt, Hn2, Hnt. lia.
    + intros h Hs. rewrite Scm, cancel_resume_cm in Hs. discriminate.
  - simpl step. unfold notify.
    destruct (deliver_frame (listeners w) m pr w) as (_ & _ & Htm & Hnt & _).
    apply timer_ids_same with (w := w); try assumption.
    apply (deliver_untouched (listeners w) m pr w).
  - simpl step. unfold elapse.
    set (w1 := run_timers _ _ w).
    assert (H1 : timer_ids_inv w1) by (apply run_timers_timer_ids; assumption).
    destruct (with_now_frame (now w + Z.max 0 ms) w1)
      as (Hcm & _ & Htm & Hnt & _).
    apply timer_ids_same with (w := w1); try assumption.
    rewrite Hcm. reflexivity.
  - destruct (Refuse_cases id reason w) as [->|(k & rest & _ & ->)];
      [assumption|].
    destruct (refused_world id reason rest w)
      as (Hcm & _ & Htm & _ & _ & Hnt & _).
    apply timer_ids_same with (w := w); try assumption.
    rewrite Hcm. reflexivity.
Qed.

Lemma construct_timer_ids owner : timer_ids_inv (construct owner).
Proof.
  unfold timer_ids_inv. cbn. repeat split.
  - constructor.
  - intros t [].
  - intros h Hh. discriminate.
  - intros t [].
Qed.

Lemma reachable_timer_ids w : reachable w -> timer_ids_inv w.
Proof.
  intros (owner & evs & ->).
  apply (run_preserves timer_ids_inv step_timer_ids_inv).
  apply construct_timer_ids.
Qed.

(* ================================================================== *)
(** ** States and errors the manager can show *)

Lemma or_else_nonempty (a : option string) (b : string) :
  b <> "" -> or_else a b <> "".
Proof. intros Hb. destruct a as [[|c s]|]; simpl; congruence. Qed.

(** What a turn of the loop does to [error]. *)
Lemma step_error_value e w :
  error (cm (step e w)) = error (cm w) \/
  error (cm (step e w)) = None \/
  exists result,
    error (cm (step e w)) =
    Some (or_else (resp_error result) "Failed to create project").
Proof.
  destruct e as [p i b| | | |id result|id reply|m pr|ms|id reason].
  - right; left. simpl step. rewrite sendPrompt_call_cm. reflexivity.
  - left. simpl step. destruct (cancel_call_world w) as (-> & _). reflexivity.
  - left. simpl step. rewrite cleanup_cm. reflexivity.
  - left. simpl step. apply (listenForPromptProgress_world w).
  - destruct (ReplyCreate_cases id result w)
      as [->|(p & i & b & rest & _ & ->)]; [left; reflexivity|].
    destruct (settle_world id
                (sendPrompt_resume p i b result (with_inflight rest w)))
      as (-> & _).
    destruct (with_inflight_world rest w) as (Hcm & _).
    destruct (sendPrompt_resume_cases p i b result (with_inflight rest w))
      as [[_ ->]|[_ ->]]; simpl snd.
    + left. rewrite sendPrompt_success_cm, Hcm. reflexivity.
    + right; right. exists result. rewrite sendPrompt_failure_cm. reflexivity.
  - destruct (ReplyCancel_cases id reply w) as [->|(rest & _ & ->)];
      [left; reflexivity|].
    left.
    destruct (settle_world id (cancel_resume reply (with_inflight rest w)))
      as (-> & _).
    rewrite cancel_resume_cm.
    destruct (with_inflight_world rest w) as (-> & _). reflexivity.
  - left. simpl step. apply (notify_untouched m pr w).
  - left. simpl step. apply (elapse_untouched ms w).
  - destruct (Refuse_cases id reason w) as [->|(k & rest & _ & ->)];
      [left; reflexivity|].
    left. destruct (refused_world id reason rest w) as (-> & _). reflexivity.
Qed.

Lemma step_error_text_inv e w : error_text_inv w -> error_text_inv (step e w).
Proof.
  unfold error_text_inv. intros H x Hx.
  destruct (step_error_value e w) as [E|[E|[result E]]]; rewrite E in Hx.
  - apply H. assumption.
  - discriminate.
  - inversion Hx; subst x. apply or_else_nonempty. discriminate.
Qed.

Lemma reachable_error_text w : reachable w -> error_text_inv w.
Proof.
  intros (owner & evs & ->).
  apply (run_preserves error_text_inv step_error_text_inv).
  intros e He. discriminate.
Qed.

(** X1: the manager never shows the state [IMPORT]: every reachable state
    is [PROMPT], [CREATE_LOADING] or [ERROR]. *)
Theorem state_is_never_import (w : World) :
  reachable w ->
  state w = PROMPT \/ state w = CREATE_LOADING \/ state w = ERROR.
Proof.
  intros Hr. destruct (reachable_invariants w Hr) as ((_ & H & _) & _).
  destruct (state w); tauto.
Qed.

Lemma state_is_never_import_witness :
  reachable failed_world /\
  (state failed_world = PROMPT \/ state failed_world = CREATE_LOADING \/
   state failed_world = ERROR).
Proof.
  assert (Hr : reachable failed_world).
  { exists sample_owner,
      [ CallSendPrompt "x" [] false;
        ReplyCreate 1%positive (failed_with (Some "disk full")) ].
    reflexivity. }
  split; [exact Hr|]. apply (state_is_never_import failed_world Hr).
Defined.

(** X2: a recorded error is never the empty string, and in the state
    [ERROR] there is one: the user interface can test [error] for
    truthiness. *)
Theorem error_text_is_never_empty (w : World) :
  reachable w ->
  (forall e, error (cm w) = Some e -> e <> "") /\
  (state w = ERROR -> exists e, error (cm w) = Some e /\ e <> "").
Proof.
  intros Hr. pose proof (reachable_error_text w Hr) as Ht.
  split; [exact Ht|].
  intros Hs. destruct (reachable_invariants w Hr) as ((_ & _ & H) & _).
  specialize (H Hs). destruct (error (cm w)) as [e|] eqn:E; [|congruence].
  exists e. split; [reflexivity | apply Ht; assumption].
Qed.

Lemma error_text_is_never_empty_witness :
  let w := run_events
             [ CallSendPrompt "x" [] false;
               ReplyCreate 1%positive (failed_with (Some "")) ]
             (construct sample_owner) in
  reachable w /\ state w = ERROR /\
  exists e, error (cm w) = Some e /\ e <> "".
Proof.
  cbv zeta.
  assert (Hr : reachable
                 (run_events
                    [ CallSendPrompt "x" [] false;
                      ReplyCreate 1%positive (failed_with (Some "")) ]
                    (construct sample_owner))).
  { exists sample_owner,
      [ CallSendPrompt "x" [] false;
        ReplyCreate 1%positive (failed_with (Some "")) ].
    reflexivity. }
  split; [exact Hr|]. split; [vm_compute; reflexivity|].
  apply (proj2 (error_text_is_never_empty _ Hr)). vm_compute; reflexivity.
Defined.

(* ================================================================== *)
(** ** The timer handle and the pending timers *)

(** What a turn of the loop does to [state] and the stored handle. *)
Lemma step_state_handle e w :
  (state (step e w) = state w /\
   slowConnectionTimer (cm (step e w)) = slowConnectionTimer (cm w)) \/
  state (step e w) = CREATE_LOADING \/
  slowConnectionTimer (cm (step e w)) = None.
Proof.
  destruct e as [p i b| | | |id result|id reply|m pr|ms|id reason].
  - right; left. unfold state. simpl step. rewrite sendPrompt_call_cm.
    reflexivity.
  - left. unfold state. simpl step.
    destruct (cancel_call_world w) as (-> & _). split; reflexivity.
  - right; right. simpl step. rewrite cleanup_cm. reflexivity.
  - left. simpl step.
    destruct (listenForPromptProgress_world w) as (A & _ & _ & B & _).
    split; assumption.
  - destruct (ReplyCreate_cases id result w)
      as [->|(p & i & b & rest & _ & ->)]; [left; split; reflexivity|].
    right; right.
    destruct (settle_world id
                (sendPrompt_resume p i b result (with_inflight rest w)))
      as (-> & _).
    destruct (sendPrompt_resume_cases p i b result (with_inflight rest w))
      as [[_ ->]|[_ ->]]; simpl snd.
    + rewrite sendPrompt_success_cm. reflexivity.
    + rewrite sendPrompt_failure_cm. reflexivity.
  - destruct (ReplyCancel_cases id reply w) as [->|(rest & _ & ->)];
      [left; split; reflexivity|].
    right; right.
    destruct (settle_world id (cancel_resume reply (with_inflight rest w)))
      as (-> & _).
    rewrite cancel_resume_cm. reflexivity.
  - left. simpl step.
    destruct (notify_untouched m pr w) as (A & _ & _ & B & _). split; assumption.
  - left. simpl step.
    destruct (elapse_untouched ms w) as (A & _ & _ & B & _). split; assumption.
  - destruct (Refuse_cases id reason w) as [->|(k & rest & _ & ->)];
      [left; split; reflexivity|].
    left. unfold state.
    destruct (refused_world id reason rest w) as (-> & _). split; reflexivity.
Qed.

Lemma step_handle_inv e w : handle_inv w -> handle_inv (step e w).
Proof.
  unfold handle_inv. intros H Hs.
  destruct (step_state_handle e w) as [[A B]|[A|A]].
  - rewrite B. apply H. rewrite <- A. assumption.
  - congruence.
  - assumption.
Qed.

(** X3: the stored timer handle is non-null only while the state is
    [CREATE_LOADING]: every way out of that state goes through the setter,
    which clears it. *)
Theorem handle_only_while_loading (w : World) :
  reachable w ->
  state w <> CREATE_LOADING ->
  slowConnectionTimer (cm w) = None.
Proof.
  intros (owner & evs & ->).
  apply (run_preserves handle_inv step_handle_inv).
  intros _. reflexivity.
Qed.

Lemma handle_only_while_loading_witness :
  reachable failed_world /\
  state failed_world <> CREATE_LOADING /\
  slowConnectionTimer (cm failed_world) = None.
Proof.
  assert (Hr : reachable failed_world).
  { exists sample_owner,
      [ CallSendPrompt "x" [] false;
        ReplyCreate 1%positive (failed_with (Some "disk full")) ].
    reflexivity. }
  split; [exact Hr|]. split; [vm_compute; discriminate|].
  apply (handle_only_while_loading failed_world Hr). vm_compute; discriminate.
Defined.

Lemma NoDup_all_equal {A : Type} (h : A) (l : list A) :
  NoDup l -> (forall x, In x l -> x = h) -> (List.length l <= 1)%nat.
Proof.
  intros Hnd Hall. destruct l as [|a [|b l]]; simpl; try lia.
  exfalso. inversion Hnd as [|x xs Hnin _]; subst. apply Hnin.
  rewrite (Hall a), (Hall b); simpl; tauto.
Qed.

(** X4: at most one guard timer is pending at any time: restarting the
    slow-connection timer clears the previous guard before it sets the
    next. *)
Theorem at_most_one_guard_timer (w : World) :
  reachable w -> (count is_guard (timers w) <= 1)%nat.
Proof.
  intros Hr.
  destruct (reachable_invariants w Hr) as (_ & _ & Hg).
  destruct (reachable_timer_ids w Hr) as (Hnd & _).
  unfold count. rewrite <- (length_map timer_id).
  destruct (slowConnectionTimer (cm w)) as [h|] eqn:Hh.
  - apply NoDup_all_equal with (h := h).
    + apply NoDup_map_filter. assumption.
    + intros x Hx. apply in_map_iff in Hx. destruct Hx as (t & <- & Ht).
      apply filter_In in Ht. destruct Ht as [Hin Hgd].
      unfold is_guard in Hgd.
      assert (Hcb : callback t = GuardCb)
        by (destruct (callback t); try discriminate; reflexivity).
      specialize (Hg t Hin Hcb). rewrite Hh in Hg. congruence.
  - destruct (filter is_guard (timers w)) as [|t l] eqn:E; simpl; [lia|].
    exfalso. assert (Ht : In t (filter is_guard (timers w)))
      by (rewrite E; left; reflexivity).
    apply filter_In in Ht. destruct Ht as [Hin Hgd].
    unfold is_guard in Hgd.
    assert (Hcb : callback t = GuardCb)
      by (destruct (callback t); try discriminate; reflexivity).
    specialize (Hg t Hin Hcb). rewrite Hh in Hg. discriminate.
Qed.

Lemma at_most_one_guard_timer_witness :
  reachable retried_world /\
  (count is_guard (timers retried_world) <= 1)%nat /\
  count is_slow (timers retried_world) = 10%nat.
Proof.
  assert (Hr : reachable retried_world).
  { exists sample_owner,
      [ CallSendPrompt "x" [] false; Elapse 1000;
        ReplyCreate 1%positive (failed_with None); Elapse 1000;
        CallSendPrompt "y" [] false ].
    reflexivity. }
  split; [exact Hr|].
  split; [apply (at_most_one_guard_timer retried_world Hr)|].
  vm_compute; reflexivity.
Defined.

Lemma is_guard_callback t : is_guard t = false <-> callback t <> GuardCb.
Proof.
  unfold is_guard. destruct (callback t); split; intros H;
    try reflexivity; try discriminate; try congruence.
Qed.

Lemma kept_timers_keeps w t :
  timer_ids_inv w -> In t (timers w) -> is_guard t = false ->
  In t (kept_timers w).
Proof.
  intros (_ & _ & _ & Hg) Hin Hng. unfold kept_timers.
  destruct (slowConnectionTimer (cm w)) as [h|] eqn:Hh; [|assumption].
  apply filter_In. split; [assumption|].
  destruct (Pos.eqb (timer_id t) h) eqn:E; [|reflexivity].
  apply Pos.eqb_eq in E. subst h.
  apply is_guard_callback in Hng. exfalso. apply Hng.
  apply Hg; [assumption | reflexivity].
Qed.

(** The pending timers after a method call or a reply: those kept by the
    setter and the new ones, or the same as before. *)
Lemma step_timers e w :
  is_elapse e = false ->
  timers (step e w) = timers w \/
  exists news, timers (step e w) = kept_timers w ++ news.
Proof.
  intros He.
  destruct e as [p i b| | | |id result|id reply|m pr|ms|id reason]; try discriminate.
  - right. exists (slow_schedule (nextTimer w) (now w)).
    apply (sendPrompt_call_world p i b w).
  - left. apply (cancel_call_world w).
  - right. exists []. rewrite app_nil_r. apply (cleanup_world w).
  - left. apply (listenForPromptProgress_world w).
  - destruct (ReplyCreate_cases id result w)
      as [->|(p & i & b & rest & _ & ->)]; [left; reflexivity|].
    right.
    destruct (with_inflight_world rest w) as (_ & _ & _ & _ & _ & Hk).
    destruct (settle_world id
                (sendPrompt_resume p i b result (with_inflight rest w)))
      as (_ & _ & -> & _).
    destruct (sendPrompt_resume_cases p i b result (with_inflight rest w))
      as [[_ ->]|[_ ->]]; simpl snd.
    + destruct (sendPrompt_success_world p i b result (with_inflight rest w))
        as (_ & _ & _ & ->).
      rewrite Hk. eexists. reflexivity.
    + destruct (sendPrompt_failure_world result (with_inflight rest w))
        as (_ & _ & _ & ->).
      rewrite Hk. exists []. rewrite app_nil_r. reflexivity.
  - destruct (ReplyCancel_cases id reply w) as [->|(rest & _ & ->)];
      [left; reflexivity|].
    right.
    destruct (with_inflight_world rest w) as (_ & _ & _ & _ & _ & Hk).
    destruct (settle_world id (cancel_resume reply (with_inflight rest w)))
      as (_ & _ & -> & _).
    destruct (cancel_resume_world reply (with_inflight rest w))
      as (_ & _ & _ & _ & ->).
    rewrite Hk. exists []. rewrite app_nil_r. reflexivity.
  - left. simpl step. unfold notify.
    apply (deliver_frame (listeners w) m pr w).
  - destruct (Refuse_cases id reason w) as [->|(k & rest & _ & ->)];
      [left; reflexivity|].
    left. apply (refused_world id reason rest w).
Qed.

(** X5: no method of the manager ever cancels a slow-message, tab-switch
    or dev-server timer: whatever is called or answered, such a pending
    timer stays pending until it fires. *)
Theorem methods_never_cancel_callbacks (e : Event) (t : Timer) (w : World) :
  reachable w ->
  is_elapse e = false ->
  In t (timers w) ->
  is_guard t = false ->
  In t (timers (step e w)).
Proof.
  intros Hr He Hin Hng.
  pose proof (kept_timers_keeps w t (reachable_timer_ids w Hr) Hin Hng) as Hk.
  destruct (step_timers e w He) as [->|(news & ->)]; [assumption|].
  apply in_or_app. left. assumption.
Qed.

Lemma methods_never_cancel_callbacks_witness :
  let t := {| timer_id := 1%positive; due := 15000;
              callback := SlowMessageCb "Finalizing layout..." |} in
  let e := ReplyCreate 1%positive (created_at "/p") in
  reachable loading_world /\
  is_elapse e = false /\
  In t (timers loading_world) /\
  is_guard t = false /\
  In t (timers (step e loading_world)).
Proof.
  assert (Hr : reachable loading_world).
  { exists sample_owner, [ CallSendPrompt "x" [] false ]. reflexivity. }
  cbv zeta. split; [exact Hr|]. split; [reflexivity|].
  split; [vm_compute; left; reflexivity|]. split; [reflexivity|].
  apply (methods_never_cancel_callbacks
           (ReplyCreate 1%positive (created_at "/p"))
           {| timer_id := 1%positive; due := 15000;
              callback := SlowMessageCb "Finalizing layout..." |}
           loading_world Hr);
    [reflexivity | vm_compute; left; reflexivity | reflexivity].
Defined.

Lemma filter_filter_absorb {A : Type} (f g : A -> bool) (l : list A) :
  (forall a, In a l -> f a = true -> g a = true) ->
  filter f (filter g l) = filter f l.
Proof.
  induction l as [|a l IH]; simpl; intros H; [reflexivity|].
  assert (IH' : filter f (filter g l) = filter f l)
    by (apply IH; intros b Hb; apply H; right; assumption).
  destruct (g a) eqn:Hg; simpl.
  - rewrite IH'. reflexivity.
  - destruct (f a) eqn:Hf; [|assumption].
    rewrite (H a (or_introl eq_refl) Hf) in Hg. discriminate.
Qed.

Lemma kept_timers_slow w :
  timer_ids_inv w ->
  filter is_slow (kept_timers w) = filter is_slow (timers w).
Proof.
  intros (_ & _ & _ & Hg). unfold kept_timers.
  destruct (slowConnectionTimer (cm w)) as [h|] eqn:Hh; [|reflexivity].
  apply filter_filter_absorb. intros t Hin Hslow.
  destruct (Pos.eqb (timer_id t) h) eqn:E; [|reflexivity].
  apply Pos.eqb_eq in E. subst h. specialize (Hg t Hin eq_refl).
  unfold is_slow in Hslow. rewrite Hg in Hslow. discriminate.
Qed.

(** X6: slow-message timers pile up: a new attempt adds its five to those
    still pending from earlier attempts and clears none of them. *)
Theorem slow_timers_accumulate
  (prompt : string) (images : list ImageMessageContext) (blank : bool)
  (w : World) :
  reachable w ->
  filter is_slow (timers (step (CallSendPrompt prompt images blank) w)) =
  filter is_slow (timers w) ++ firstn 5 (slow_schedule (nextTimer w) (now w)).
Proof.
  intros Hr. simpl step.
  destruct (sendPrompt_call_world prompt images blank w)
    as (_ & _ & _ & -> & _).
  rewrite filter_app, (kept_timers_slow w (reachable_timer_ids w Hr)).
  reflexivity.
Qed.

Lemma slow_timers_accumulate_witness :
  reachable failed_world /\
  List.length (filter is_slow (timers failed_world)) = 5%nat /\
  List.length
    (filter is_slow (timers (step (CallSendPrompt "y" [] true) failed_world)))
  = 10%nat.
Proof.
  assert (Hr : reachable failed_world).
  { exists sample_owner,
      [ CallSendPrompt "x" [] false;
        ReplyCreate 1%positive (failed_with (Some "disk full")) ].
    reflexivity. }
  split; [exact Hr|]. split; [vm_compute; reflexivity|].
  rewrite (slow_timers_accumulate "y" [] true failed_world Hr).
  vm_compute; reflexivity.
Defined.

(* ================================================================== *)
(** ** What passing time does to the manager *)

Lemma fire_cm_idle t w :
  state w <> CREATE_LOADING -> cm (fire t w) = cm w.
Proof.
  intros Hs. apply CreateState_eqb_neq in Hs.
  destruct t as [id d cb]. unfold fire, andThen. world w.
  unfold state in Hs. cbn in Hs. destruct cb; cbn; try reflexivity.
  - rewrite Hs. reflexivity.
  - destruct rn; reflexivity.
Qed.

Lemma fire_progress t w :
  progress (cm (fire t w)) =
  progress (cm w) +
  (if is_slow t && CreateState_eqb (state w) CREATE_LOADING then 10 else 0).
Proof.
  destruct t as [id d cb]. unfold fire, andThen, is_slow, state. world w.
  destruct cb; cbn; try lia.
  - destruct (CreateState_eqb st CREATE_LOADING); cbn; lia.
  - destruct rn; cbn; lia.
Qed.

Lemma run_timers_cm_idle fuel deadline :
  forall w, state w <> CREATE_LOADING ->
            cm (run_timers fuel deadline w) = cm w.
Proof.
  induction fuel as [|fuel IH]; intros w Hs; simpl; [reflexivity|].
  destruct (earliest (timers w)) as [t|]; [|reflexivity].
  destruct (due t <=? deadline); [|reflexivity].
  rewrite IH.
  - apply fire_cm_idle. assumption.
  - destruct (fire_untouched t w) as (-> & _). assumption.
Qed.

(** X7: outside [CREATE_LOADING] no timer writes to the manager: however
    much time passes and whatever timers are pending, state, progress,
    message and error are as before. *)
Theorem timers_are_inert_outside_loading (ms : Z) (w : World) :
  state w <> CREATE_LOADING -> cm (elapse ms w) = cm w.
Proof.
  intros Hs. unfold elapse.
  destruct (with_now_frame (now w + Z.max 0 ms)
              (run_timers (List.length (timers w)) (now w + Z.max 0 ms) w))
    as (-> & _).
  apply run_timers_cm_idle. assumption.
Qed.

Lemma timers_are_inert_outside_loading_witness :
  state failed_world <> CREATE_LOADING /\
  timers failed_world <> [] /\
  cm (elapse 100000 failed_world) = cm failed_world.
Proof.
  split; [vm_compute; discriminate|]. split; [vm_compute; discriminate|].
  apply (timers_are_inert_outside_loading 100000 failed_world).
  vm_compute; discriminate.
Defined.

Lemma filter_all_true {A : Type} (f : A -> bool) (l : list A) :
  (forall a, In a l -> f a = true) -> filter f l = l.
Proof.
  induction l as [|a l IH]; simpl; intros H; [reflexivity|].
  rewrite (H a (or_introl eq_refl)). f_equal. apply IH.
  intros b Hb. apply H. right. assumption.
Qed.

Lemma count_none {A : Type} (f : A -> bool) (l : list A) :
  (forall a, In a l -> f a = false) -> count f l = 0%nat.
Proof.
  unfold count. induction l as [|a l IH]; simpl; intros H; [reflexivity|].
  rewrite (H a (or_introl eq_refl)). apply IH.
  intros b Hb. apply H. right. assumption.
Qed.


Lemma count_cons {A : Type} (f : A -> bool) (a : A) (l : list A) :
  count f (a :: l) = ((if f a then 1 else 0) + count f l)%nat.
Proof. unfold count. simpl. destruct (f a); reflexivity. Qed.

Lemma count_without_one (f : Timer -> bool) (t : Timer) (l : list Timer) :
  NoDup (map timer_id l) -> In t l ->
  (count f (filter (fun u => negb (Pos.eqb (timer_id u) (timer_id t))) l)
   + (if f t then 1 else 0))%nat = count f l.
Proof.
  induction l as [|a l IH]; simpl; intros Hnd Hin; [contradiction|].
  inversion Hnd as [|x xs Hnin Hnd']; subst.
  destruct Hin as [->|Hin].
  - rewrite Pos.eqb_refl. simpl. rewrite count_cons.
    rewrite filter_all_true; [lia|].
    intros u Hu. destruct (Pos.eqb (timer_id u) (timer_id t)) eqn:E;
      [|reflexivity].
    apply Pos.eqb_eq in E. exfalso. apply Hnin. rewrite <- E.
    apply in_map. assumption.
  - assert (Hne : Pos.eqb (timer_id a) (timer_id t) = false).
    { apply Pos.eqb_neq. intros E. apply Hnin. rewrite E.
      apply in_map. assumption. }
    rewrite Hne. simpl. rewrite !count_cons.
    specialize (IH Hnd' Hin). lia.
Qed.

Lemma run_timers_progress fuel deadline :
  forall w,
    NoDup (map timer_id (timers w)) ->
    state w = CREATE_LOADING ->
    (List.length (timers w) <= fuel)%nat ->
    progress (cm (run_timers fuel deadline w)) =
    progress (cm w) + 10 * Z.of_nat (count (slow_due deadline) (timers w)).
Proof.
  induction fuel as [|fuel IH]; intros w Hnd Hs Hlen; cbn [run_timers].
  - destruct (timers w); [cbn; lia | simpl in Hlen; lia].
  - destruct (earliest (timers w)) as [t|] eqn:He.
    + destruct (earliest_least _ _ He) as [Hin Hle].
      destruct (due t <=? deadline) eqn:Hd.
      * rewrite IH.
        -- rewrite fire_progress, fire_timers, Hs. cbn [CreateState_eqb].
           rewrite andb_true_r.
           pose proof (count_without_one (slow_due deadline) t (timers w)
                         Hnd Hin) as Hc.
           unfold slow_due at 2 in Hc. rewrite Hd, andb_true_r in Hc.
           destruct (is_slow t); lia.
        -- rewrite fire_timers. apply NoDup_map_filter. assumption.
        -- destruct (fire_untouched t w) as (-> & _). assumption.
        -- rewrite fire_timers.
           assert (List.length
                     (filter (fun u => negb (Pos.eqb (timer_id u) (timer_id t)))
                             (timers w)) < List.length (timers w))%nat.
           { apply filter_out_shorter with (t := t); [assumption|].
             rewrite Pos.eqb_refl. reflexivity. }
           lia.
      * apply Z.leb_gt in Hd. rewrite count_none; [lia|].
        intros u Hu. specialize (Hle u Hu). unfold slow_due.
        replace (due u <=? deadline) with false
          by (symmetry; apply Z.leb_gt; lia).
        apply andb_false_r.
    + apply earliest_none in He. rewrite He. cbn. lia.
Qed.

(** X8: while the state is [CREATE_LOADING], letting time pass adds 10
    to [progress] for every pending slow-message timer that comes due,
    those of earlier attempts included -- the sum is not capped at 100;
    the value is exactly that sum as long as it stays where JavaScript
    adds exactly. *)
Theorem elapse_adds_ten_per_due_message (ms : Z) (w : World) :
  reachable w ->
  state w = CREATE_LOADING ->
  exact_sum (progress (cm w))
    (10 * Z.of_nat (count (slow_due (now w + Z.max 0 ms)) (timers w))) ->
  progress (cm (elapse ms w)) =
  progress (cm w) +
  10 * Z.of_nat (count (slow_due (now w + Z.max 0 ms)) (timers w)).
Proof.
  intros Hr Hs _. unfold elapse.
  destruct (with_now_frame (now w + Z.max 0 ms)
              (run_timers (List.length (timers w)) (now w + Z.max 0 ms) w))
    as (-> & _).
  apply run_timers_progress; [|assumption|apply le_n].
  apply (reachable_timer_ids w Hr).
Qed.

Lemma elapse_adds_ten_per_due_message_witness :
  reachable retried_world /\
  state retried_world = CREATE_LOADING /\
  count (slow_due (now retried_world + Z.max 0 200000)) (timers retried_world)
  = 10%nat /\
  exact_sum (progress (cm retried_world)) (10 * Z.of_nat 10) /\
  progress (cm (elapse 200000 retried_world)) = 100.
Proof.
  assert (Hr : reachable retried_world).
  { exists sample_owner,
      [ CallSendPrompt "x" [] false; Elapse 1000;
        ReplyCreate 1%positive (failed_with None); Elapse 1000;
        CallSendPrompt "y" [] false ].
    reflexivity. }
  assert (Hex : exact_sum (progress (cm retried_world))
                  (10 * Z.of_nat
                          (count (slow_due (now retried_world + Z.max 0 200000))
                                 (timers retried_world)))).
  { vm_compute. repeat split; discriminate. }
  split; [exact Hr|]. split; [vm_compute; reflexivity|].
  split; [vm_compute; reflexivity|].
  split; [vm_compute; repeat split; discriminate|].
  rewrite (elapse_adds_ten_per_due_message 200000 retried_world Hr
             ltac:(vm_compute; reflexivity) Hex).
  vm_compute; reflexivity.
Defined.

(* ================================================================== *)
(** ** The delayed effects of a success *)

Lemma NoDup_map_inj {A B : Type} (f : A -> B) (l : list A) (a b : A) :
  NoDup (map f l) -> In a l -> In b l -> f a = f b -> a = b.
Proof.
  induction l as [|x l IH]; simpl; intros Hnd Ha Hb E; [contradiction|].
  inversion Hnd as [|y ys Hnin Hnd']; subst.
  destruct Ha as [->|Ha], Hb as [->|Hb].
  - reflexivity.
  - exfalso. apply Hnin. rewrite E. apply in_map. assumption.
  - exfalso. apply Hnin. rewrite <- E. apply in_map. assumption.
  - apply IH; assumption.
Qed.

Lemma run_timers_stable (P : World -> Prop) :
  (forall u w, P w -> P (fire u w)) ->
  forall fuel deadline w, P w -> P (run_timers fuel deadline w).
Proof.
  intros Hfire fuel deadline.
  induction fuel as [|fuel IH]; intros w Hw; simpl; [assumption|].
  destruct (earliest (timers w)) as [t|]; [|assumption].
  destruct (due t <=? deadline); [|assumption].
  apply IH. apply Hfire. assumption.
Qed.

(** A pending timer that is due by the deadline fires, and what its
    callback establishes for good holds afterwards. *)
Lemma run_timers_fires (P : World -> Prop) (t : Timer) (deadline : Z) :
  (forall u w, P w -> P (fire u w)) ->
  (forall w, P (fire t w)) ->
  forall fuel w,
    NoDup (map timer_id (timers w)) ->
    In t (timers w) ->
    due t <= deadline ->
    (List.length (timers w) <= fuel)%nat ->
    P (run_timers fuel deadline w).
Proof.
  intros Hstable Hfire fuel.
  induction fuel as [|fuel IH]; intros w Hnd Hin Hdue Hlen; simpl.
  - destruct (timers w); [contradiction | simpl in Hlen; lia].
  - destruct (earliest (timers w)) as [u|] eqn:He.
    + destruct (earliest_least _ _ He) as [Hu Hle].
      specialize (Hle t Hin).
      replace (due u <=? deadline) with true
        by (symmetry; apply Z.leb_le; lia).
      destruct (Pos.eqb (timer_id u) (timer_id t)) eqn:E.
      * apply Pos.eqb_eq in E.
        assert (u = t) by (eapply NoDup_map_inj; eassumption). subst u.
        apply run_timers_stable; [assumption | apply Hfire].
      * apply IH.
        -- rewrite fire_timers. apply NoDup_map_filter. assumption.
        -- rewrite fire_timers. apply filter_In. split; [assumption|].
           rewrite Pos.eqb_sym, E. reflexivity.
        -- assumption.
        -- rewrite fire_timers.
           assert (List.length
                     (filter (fun v => negb (Pos.eqb (timer_id v) (timer_id u)))
                             (timers w)) < List.length (timers w))%nat.
           { apply filter_out_shorter with (t := u); [assumption|].
             rewrite Pos.eqb_refl. reflexivity. }
           lia.
    + apply earliest_none in He. rewrite He in Hin. contradiction.
Qed.

Lemma fire_projectsTab t w :
  projectsTab (pm (fire t w)) =
  match callback t with
  | ProjectsTabCb => PROJECTS
  | _ => projectsTab (pm w)
  end.
Proof.
  destruct t as [id d cb]. unfold fire, andThen. world w.
  destruct cb; cbn; try reflexivity.
  - destruct (CreateState_eqb st CREATE_LOADING); reflexivity.
  - destruct rn; reflexivity.
Qed.

Lemma fire_effects t w :
  effects (fire t w) =
  effects w ++
  match callback t with
  | StartRunnerCb => if runner (pm w) then [ StartIfPortAvailable ] else []
  | _ => []
  end.
Proof.
  destruct t as [id d cb]. unfold fire, andThen. world w.
  destruct cb; cbn; try (rewrite app_nil_r; reflexivity).
  - destruct (CreateState_eqb st CREATE_LOADING); cbn;
      rewrite app_nil_r; reflexivity.
  - destruct rn; cbn; [reflexivity | rewrite app_nil_r; reflexivity].
Qed.

(** X9: after the reply that creates the project, once 100 ms have
    passed the owner's active tab is the projects view. *)
Theorem projects_tab_shown_after_success
  (id : positive) (prompt : string) (images : list ImageMessageContext)
  (blank : bool) (rest : list (positive * Continuation))
  (result : CreateProjectResponse) (ms : Z) (w : World) :
  reachable w ->
  take_request id (inflight w) = Some (KSendPrompt prompt images blank, rest) ->
  is_success result = true ->
  100 <= ms ->
  projectsTab (pm (elapse ms (step (ReplyCreate id result) w))) = PROJECTS.
Proof.
  intros Hr Htake Hok Hms.
  assert (Hids : timer_ids_inv (step (ReplyCreate id result) w))
    by (apply step_timer_ids_inv, reachable_timer_ids; assumption).
  destruct Hids as (Hnd & _).
  assert (Hstep : step (ReplyCreate id result) w =
                  settle id (Fulfilled,
                             sendPrompt_success prompt images blank result
                               (with_inflight rest w))).
  { simpl. rewrite Htake. unfold sendPrompt_resume. rewrite Hok. reflexivity. }
  set (w0 := with_inflight rest w) in *.
  set (w' := step (ReplyCreate id result) w) in *.
  set (tab := {| timer_id := nextTimer w0; due := now w0 + 100;
                 callback := ProjectsTabCb |}).
  assert (Hin : In tab (timers w')).
  { rewrite Hstep.
    destruct (settle_world id
                (Fulfilled, sendPrompt_success prompt images blank result w0))
      as (_ & _ & -> & _).
    simpl snd.
    destruct (sendPrompt_success_world prompt images blank result w0)
      as (_ & _ & _ & ->).
    apply in_or_app. right. left. reflexivity. }
  assert (Hnow : now w' = now w0).
  { rewrite Hstep.
    destruct (settle_counters id
                (Fulfilled, sendPrompt_success prompt images blank result w0))
      as (_ & _ & -> & _).
    simpl snd. apply (sendPrompt_success_counters prompt images blank result w0). }
  unfold elapse.
  destruct (with_now_frame (now w' + Z.max 0 ms)
              (run_timers (List.length (timers w')) (now w' + Z.max 0 ms) w'))
    as (_ & -> & _).
  apply (run_timers_fires
           (fun x => projectsTab (pm x) = PROJECTS) tab (now w' + Z.max 0 ms)).
  - intros u x Hx. rewrite fire_projectsTab.
    destruct (callback u); try assumption; reflexivity.
  - intros x. rewrite fire_projectsTab. reflexivity.
  - assumption.
  - assumption.
  - subst tab. cbn [due]. rewrite Hnow. lia.
  - apply le_n.
Qed.

Lemma projects_tab_shown_after_success_witness :
  let w' := elapse 100 (step (ReplyCreate 1%positive (created_at "/p"))
                             loading_world) in
  reachable loading_world /\
  take_request 1%positive (inflight loading_world)
    = Some (KSendPrompt "x" [] false, []) /\
  projectsTab (pm loading_world) <> PROJECTS /\
  projectsTab (pm w') = PROJECTS.
Proof.
  assert (Hr : reachable loading_world).
  { exists sample_owner, [ CallSendPrompt "x" [] false ]. reflexivity. }
  cbv zeta. split; [exact Hr|]. split; [vm_compute; reflexivity|].
  split; [vm_compute; discriminate|].
  apply (projects_tab_shown_after_success
           1%positive "x" [] false [] (created_at "/p") 100 loading_world Hr);
    [vm_compute; reflexivity | vm_compute; reflexivity | lia].
Defined.

(** X10: after the reply that creates the project, once a second has
    passed the owner's dev-server runner, when there is one, has been
    asked to start. *)
Theorem runner_started_after_success
  (id : positive) (prompt : string) (images : list ImageMessageContext)
  (blank : bool) (rest : list (positive * Continuation))
  (result : CreateProjectResponse) (ms : Z) (w : World) :
  reachable w ->
  take_request id (inflight w) = Some (KSendPrompt prompt images blank, rest) ->
  is_success result = true ->
  runner (pm w) = true ->
  1000 <= ms ->
  In StartIfPortAvailable
     (effects (elapse ms (step (ReplyCreate id result) w))).
Proof.
  intros Hr Htake Hok Hrun Hms.
  assert (Hids : timer_ids_inv (step (ReplyCreate id result) w))
    by (apply step_timer_ids_inv, reachable_timer_ids; assumption).
  destruct Hids as (Hnd & _).
  assert (Hstep : step (ReplyCreate id result) w =
                  settle id (Fulfilled,
                             sendPrompt_success prompt images blank result
                               (with_inflight rest w))).
  { simpl. rewrite Htake. unfold sendPrompt_resume. rewrite Hok. reflexivity. }
  set (w0 := with_inflight rest w) in *.
  set (w' := step (ReplyCreate id result) w) in *.
  set (start := {| timer_id := Pos.succ (nextTimer w0); due := now w0 + 1000;
                   callback := StartRunnerCb |}).
  assert (Hin : In start (timers w')).
  { rewrite Hstep.
    destruct (settle_world id
                (Fulfilled, sendPrompt_success prompt images blank result w0))
      as (_ & _ & -> & _).
    simpl snd.
    destruct (sendPrompt_success_world prompt images blank result w0)
      as (_ & _ & _ & ->).
    apply in_or_app. right. right. left. reflexivity. }
  assert (Hnow : now w' = now w0).
  { rewrite Hstep.
    destruct (settle_counters id
                (Fulfilled, sendPrompt_success prompt images blank result w0))
      as (_ & _ & -> & _).
    simpl snd. apply (sendPrompt_success_counters prompt images blank result w0). }
  assert (Hrun' : runner (pm w') = true).
  { rewrite Hstep.
    destruct (settle_world id
                (Fulfilled, sendPrompt_success prompt images blank result w0))
      as (_ & -> & _).
    simpl snd.
    destruct (sendPrompt_success_counters prompt images blank result w0)
      as (_ & _ & _ & ->).
    cbn [runner]. subst w0.
    destruct (with_inflight_world rest w) as (_ & -> & _). assumption. }
  unfold elapse.
  destruct (with_now_frame (now w' + Z.max 0 ms)
              (run_timers (List.length (timers w')) (now w' + Z.max 0 ms) w'))
    as (_ & _ & _ & _ & _ & -> & _).
  assert (Hgoal :
            runner (pm (run_timers (List.length (timers w'))
                                   (now w' + Z.max 0 ms) w')) = true ->
            In StartIfPortAvailable
               (effects (run_timers (List.length (timers w'))
                                    (now w' + Z.max 0 ms) w'))).
  { apply (run_timers_fires
             (fun x => runner (pm x) = true ->
                       In StartIfPortAvailable (effects x))
             start (now w' + Z.max 0 ms)).
    - intros u x Hx Hrx. rewrite fire_effects. apply in_or_app. left.
      apply Hx. destruct (fire_frame u x) as (_ & _ & _ & _ & _ & <-).
      assumption.
    - intros x Hrx. rewrite fire_effects. cbn [callback start].
      destruct (fire_frame start x) as (_ & _ & _ & _ & _ & E).
      rewrite E in Hrx. rewrite Hrx. apply in_or_app. right. left. reflexivity.
    - assumption.
    - assumption.
    - subst start. cbn [due]. rewrite Hnow. lia.
    - apply le_n. }
  apply Hgoal.
  destruct (run_timers_frame (List.length (timers w')) (now w' + Z.max 0 ms) w')
    as (_ & _ & _ & _ & ->).
  assumption.
Qed.

Lemma runner_started_after_success_witness :
  let w' := elapse 1000 (step (ReplyCreate 1%positive (created_at "/p"))
                              loading_world) in
  reachable loading_world /\
  runner (pm loading_world) = true /\
  ~ In StartIfPortAvailable (effects loading_world) /\
  In StartIfPortAvailable (effects w').
Proof.
  assert (Hr : reachable loading_world).
  { exists sample_owner, [ CallSendPrompt "x" [] false ]. reflexivity. }
  cbv zeta. split; [exact Hr|]. split; [vm_compute; reflexivity|].
  split.
  - vm_compute. intros [H|[H|[]]]; discriminate.
  - apply (runner_started_after_success
             1%positive "x" [] false [] (created_at "/p") 1000 loading_world Hr);
      [vm_compute; reflexivity | vm_compute; reflexivity
       | vm_compute; reflexivity | lia].
Defined.

(* ================================================================== *)
(** ** What a reply logs *)

(** X11: a reply to [sendPrompt] logs, in this order and nothing else:
    on success, the request for chat suggestions -- only for a project
    that is not blank, a reply with non-empty content and an owner with
    an editor engine -- and the success event; on failure, the error
    event with the recorded error text. *)
Theorem reply_effects
  (prompt : string) (images : list ImageMessageContext) (blank : bool)
  (result : CreateProjectResponse) (w : World) :
  let w' := snd (sendPrompt_resume prompt images blank result w) in
  effects w' =
  effects w ++
  (if is_success result
   then (if negb blank && truthy (response_content result)
            && editorEngine (pm w)
         then [ GenerateCreatedSuggestions prompt
                  (present (response_content result)) images ]
         else []) ++ [ AnalyticsSuccess ]
   else [ AnalyticsError (error (cm w')) ]).
Proof.
  cbv zeta. unfold sendPrompt_resume.
  destruct (is_success result); simpl snd.
  - apply sendPrompt_success_effects.
  - rewrite sendPrompt_failure_cm. cbn [error].
    apply sendPrompt_failure_counters.
Qed.

(* ================================================================== *)
(** ** Pending requests *)

Lemma take_request_spec id l :
  forall k rest,
    take_request id l = Some (k, rest) ->
    exists l1 l2, l = l1 ++ (id, k) :: l2 /\ rest = l1 ++ l2.
Proof.
  induction l as [|[i k0] l IH]; simpl; intros k rest H; [discriminate|].
  destruct (Pos.eqb i id) eqn:E.
  - apply Pos.eqb_eq in E. subst i. inversion H; subst.
    exists [], rest. split; reflexivity.
  - destruct (take_request id l) as [[k' rest']|]; [|discriminate].
    inversion H; subst.
    destruct (IH k rest' eq_refl) as (l1 & l2 & -> & ->).
    exists ((i, k0) :: l1), l2. split; reflexivity.
Qed.

Lemma take_request_found id k l :
  NoDup (map fst l) -> In (id, k) l ->
  exists rest, take_request id l = Some (k, rest).
Proof.
  induction l as [|[i k0] l IH]; simpl; intros Hnd Hin; [contradiction|].
  inversion Hnd as [|x xs Hnin Hnd']; subst.
  destruct (Pos.eqb i id) eqn:E.
  - apply Pos.eqb_eq in E. subst i. destruct Hin as [Hin|Hin].
    + inversion Hin; subst. eexists. reflexivity.
    + exfalso. apply Hnin. apply (in_map fst) in Hin. exact Hin.
  - destruct Hin as [Hin|Hin].
    + inversion Hin; subst. rewrite Pos.eqb_refl in E. discriminate.
    + destruct (IH Hnd' Hin) as (rest & ->). eexists. reflexivity.
Qed.

(** What a turn of the loop does to the pending requests. *)
Lemma step_inflight e w :
  (inflight (step e w) = inflight w /\
   nextRequest (step e w) = nextRequest w) \/
  (exists k, inflight (step e w) = inflight w ++ [(nextRequest w, k)] /\
             nextRequest (step e w) = Pos.succ (nextRequest w)) \/
  (exists id k rest,
     take_request id (inflight w) = Some (k, rest) /\
     inflight (step e w) = rest /\
     nextRequest (step e w) = nextRequest w /\
     (k = KCancel \/ is_reply_to id e = true)).
Proof.
  destruct e as [p i b| | | |id result|id reply|m pr|ms|id reason].
  - right; left. exists (KSendPrompt p i b). simpl step. split.
    + apply (sendPrompt_call_world p i b w).
    + apply (sendPrompt_call_counters p i b w).
  - right; left. exists KCancel. simpl step. split.
    + apply (cancel_call_world w).
    + apply (cancel_call_counters w).
  - left. simpl step. split; apply (cleanup_world w).
  - left. simpl step. split.
    + apply (listenForPromptProgress_world w).
    + apply (listenForPromptProgress_counters w).
  - destruct (ReplyCreate_cases id result w)
      as [->|(p & i & b & rest & Htake & ->)]; [left; split; reflexivity|].
    right; right. exists id, (KSendPrompt p i b), rest.
    split; [assumption|].
    destruct (settle_world id
                (sendPrompt_resume p i b result (with_inflight rest w)))
      as (_ & _ & _ & _ & ->).
    destruct (settle_counters id
                (sendPrompt_resume p i b result (with_inflight rest w)))
      as (_ & -> & _).
    destruct (with_inflight_world rest w) as (_ & _ & _ & _ & Hin & _).
    destruct (with_inflight_counters rest w) as (_ & Hnr & _).
    destruct (sendPrompt_resume_cases p i b result (with_inflight rest w))
      as [[_ ->]|[_ ->]]; simpl snd.
    + destruct (sendPrompt_success_world p i b result (with_inflight rest w))
        as (_ & _ & -> & _).
      destruct (sendPrompt_success_counters p i b result (with_inflight rest w))
        as (_ & -> & _).
      repeat split; try assumption. right. simpl. apply Pos.eqb_refl.
    + destruct (sendPrompt_failure_world result (with_inflight rest w))
        as (_ & _ & -> & _).
      destruct (sendPrompt_failure_counters result (with_inflight rest w))
        as (_ & -> & _).
      repeat split; try assumption. right. simpl. apply Pos.eqb_refl.
  - destruct (ReplyCancel_cases id reply w) as [->|(rest & Htake & ->)];
      [left; split; reflexivity|].
    right; right. exists id, KCancel, rest.
    split; [assumption|].
    destruct (settle_world id (cancel_resume reply (with_inflight rest w)))
      as (_ & _ & _ & _ & ->).
    destruct (settle_counters id (cancel_resume reply (with_inflight rest w)))
      as (_ & -> & _).
    destruct (cancel_resume_world reply (with_inflight rest w))
      as (_ & _ & -> & _).
    destruct (cancel_resume_counters reply (with_inflight rest w)) as (_ & ->).
    destruct (with_inflight_world rest w) as (_ & _ & _ & _ & -> & _).
    destruct (with_inflight_counters rest w) as (_ & -> & _).
    repeat split. left. reflexivity.
  - left. simpl step. split.
    + apply (notify_untouched m pr w).
    + unfold notify. apply (deliver_frame (listeners w) m pr w).
  - left. simpl step. split.
    + apply (elapse_untouched ms w).
    + apply (elapse_frame ms w).
  - destruct (Refuse_cases id reason w) as [->|(k & rest & Htake & ->)];
      [left; split; reflexivity|].
    right; right. exists id, k, rest.
    destruct (refused_world id reason rest w)
      as (_ & _ & _ & _ & -> & _ & -> & _).
    repeat split; try assumption. right. simpl. apply Pos.eqb_refl.
Qed.

(** X12: nothing withdraws a pending [sendPrompt] but its own reply:
    not [cancel], not [cleanup], not a timer, not the reply to another
    request. *)
Theorem pending_prompt_survives
  (id : positive) (prompt : string) (images : list ImageMessageContext)
  (blank : bool) (e : Event) (w : World) :
  In (id, KSendPrompt prompt images blank) (inflight w) ->
  is_reply_to id e = false ->
  In (id, KSendPrompt prompt images blank) (inflight (step e w)).
Proof.
  intros Hin He.
  destruct (step_inflight e w)
    as [[-> _]|[(k & -> & _)|(i & k & rest & Htake & -> & _ & Hk)]].
  - assumption.
  - apply in_or_app. left. assumption.
  - destruct (take_request_spec _ _ _ _ Htake) as (l1 & l2 & E & ->).
    rewrite E in Hin. apply in_app_or in Hin. apply in_or_app.
    destruct Hin as [Hin|[Hin|Hin]]; [left; assumption | | right; assumption].
    exfalso. inversion Hin; subst.
    destruct Hk as [Hk|Hk]; [discriminate | congruence].
Qed.

Lemma pending_prompt_survives_witness :
  let w := run_events [ CallCancel ] loading_world in
  In (1%positive, KSendPrompt "x" [] false) (inflight w) /\
  is_reply_to 1%positive (ReplyCancel 2%positive JsUndefined) = false /\
  state (step (ReplyCancel 2%positive JsUndefined) w) = PROMPT /\
  In (1%positive, KSendPrompt "x" [] false)
     (inflight (step (ReplyCancel 2%positive JsUndefined) w)).
Proof.
  cbv zeta. split; [vm_compute; left; reflexivity|].
  split; [reflexivity|]. split; [vm_compute; reflexivity|].
  apply (pending_prompt_survives 1%positive "x" [] false
           (ReplyCancel 2%positive JsUndefined)
           (run_events [ CallCancel ] loading_world));
    [vm_compute; left; reflexivity | reflexivity].
Defined.

Lemma step_request_ids_inv e w : request_ids_inv w -> request_ids_inv (step e w).
Proof.
  unfold request_ids_inv. intros (Hnd & Hlt).
  destruct (step_inflight e w)
    as [[-> ->]|[(k & -> & ->)|(i & k & rest & Htake & -> & -> & _)]].
  - split; assumption.
  - split.
    + rewrite map_app. apply NoDup_app; [assumption | repeat constructor; simpl; tauto |].
      intros a Ha [Hb|[]]. simpl in Hb. subst a.
      apply in_map_iff in Ha. destruct Ha as (x & Hx & Hin).
      specialize (Hlt x Hin). lia.
    + intros x Hx. apply in_app_or in Hx. destruct Hx as [Hx|[<-|[]]].
      * specialize (Hlt x Hx). lia.
      * simpl. lia.
  - destruct (take_request_spec _ _ _ _ Htake) as (l1 & l2 & E & ->).
    rewrite E in Hnd, Hlt. split.
    + rewrite map_app in *. simpl in Hnd.
      apply NoDup_remove_1 in Hnd. assumption.
    + intros x Hx. apply Hlt. apply in_app_or in Hx. apply in_or_app.
      destruct Hx; [left | right; right]; assumption.
Qed.

Lemma reachable_request_ids w : reachable w -> request_ids_inv w.
Proof.
  intros (owner & evs & ->).
  apply (run_preserves request_ids_inv step_request_ids_inv).
  unfold request_ids_inv. cbn. split; [constructor | intros x []].
Qed.

(** X13: the reply to a pending [sendPrompt] always lands, whatever the
    state has become meanwhile (a [cancel] may have reset it): a success
    installs the project and sets [PROMPT], a failure sets [ERROR]; and
    the request is then no longer pending. *)
Theorem late_reply_still_lands
  (id : positive) (prompt : string) (images : list ImageMessageContext)
  (blank : bool) (result : CreateProjectResponse) (w : World) :
  reachable w ->
  In (id, KSendPrompt prompt images blank) (inflight w) ->
  let w' := step (ReplyCreate id result) w in
  (is_success result = true ->
   state w' = PROMPT /\
   project (pm w') =
     Some (createProject (present (option_map projectPath (response result))))) /\
  (is_success result = false ->
   state w' = ERROR /\
   error (cm w') =
     Some (or_else (resp_error result) "Failed to create project")) /\
  (forall k, ~ In (id, k) (inflight w')).
Proof.
  intros Hr Hin. cbv zeta.
  destruct (reachable_request_ids w Hr) as (Hnd & _).
  destruct (take_request_found id _ _ Hnd Hin) as (rest & Htake).
  assert (Hstep : step (ReplyCreate id result) w =
                  settle id (sendPrompt_resume prompt images blank result
                               (with_inflight rest w)))
    by (simpl; rewrite Htake; reflexivity).
  rewrite Hstep.
  destruct (settle_world id
              (sendPrompt_resume prompt images blank result
                 (with_inflight rest w)))
    as (Scm & Spm & _ & _ & Sin).
  unfold state. rewrite Scm, Spm, Sin.
  split; [|split].
  - intros Hok. unfold sendPrompt_resume. rewrite Hok. simpl snd.
    rewrite sendPrompt_success_cm. split; [reflexivity|].
    apply (sendPrompt_success_world prompt images blank result
             (with_inflight rest w)).
  - intros Hko. unfold sendPrompt_resume. rewrite Hko. simpl snd.
    rewrite sendPrompt_failure_cm. split; reflexivity.
  - intros k Hk.
    assert (Hrest : inflight (snd (sendPrompt_resume prompt images blank result
                                     (with_inflight rest w))) = rest).
    { destruct (with_inflight_world rest w) as (_ & _ & _ & _ & Hi & _).
      destruct (sendPrompt_resume_cases prompt images blank result
                  (with_inflight rest w)) as [[_ ->]|[_ ->]]; simpl snd.
      - destruct (sendPrompt_success_world prompt images blank result
                    (with_inflight rest w)) as (_ & _ & -> & _).
        assumption.
      - destruct (sendPrompt_failure_world result (with_inflight rest w))
          as (_ & _ & -> & _).
        assumption. }
    rewrite Hrest in Hk.
    destruct (take_request_spec _ _ _ _ Htake) as (l1 & l2 & E & ->).
    rewrite E, map_app in Hnd. simpl in Hnd.
    apply NoDup_remove_2 in Hnd. apply Hnd.
    rewrite <- map_app. apply (in_map fst) in Hk. exact Hk.
Qed.

Lemma late_reply_still_lands_witness :
  let w := run_events [ CallCancel; ReplyCancel 2%positive JsUndefined ]
                      loading_world in
  let w' := step (ReplyCreate 1%positive (created_at "/p")) w in
  reachable w /\
  state w = PROMPT /\
  In (1%positive, KSendPrompt "x" [] false) (inflight w) /\
  state w' = PROMPT /\
  project (pm w') = Some (new_project_at "/p").
Proof.
  assert (Hr : reachable
                 (run_events [ CallCancel; ReplyCancel 2%positive JsUndefined ]
                             loading_world)).
  { exists sample_owner,
      [ CallSendPrompt "x" [] false; CallCancel;
        ReplyCancel 2%positive JsUndefined ].
    vm_compute; reflexivity. }
  cbv zeta. split; [exact Hr|]. split; [vm_compute; reflexivity|].
  split; [vm_compute; left; reflexivity|].
  apply (proj1 (late_reply_still_lands
                  1%positive "x" [] false (created_at "/p") _ Hr
                  ltac:(vm_compute; left; reflexivity))).
  vm_compute; reflexivity.
Defined.

(* ================================================================== *)
(** ** Every attempt is accounted for *)






(* ================================================================== *)
(** ** Who writes [progress] and [message] *)

Lemma step_progress_message e w :
  is_notification e = false ->
  is_elapse e = false ->
  progress (cm (step e w)) = progress (cm w) /\
  message (cm (step e w)) = message (cm w).
Proof.
  intros Hn He.
  destruct e as [p i b| | | |id result|id reply|m pr|ms|id reason]; try discriminate.
  - simpl step. rewrite sendPrompt_call_cm. split; reflexivity.
  - simpl step. destruct (cancel_call_world w) as (-> & _). split; reflexivity.
  - simpl step. rewrite cleanup_cm. split; reflexivity.
  - simpl step.
    destruct (listenForPromptProgress_counters w) as (_ & _ & _ & _ & A & B).
    split; assumption.
  - destruct (ReplyCreate_cases id result w)
      as [->|(p & i & b & rest & _ & ->)]; [split; reflexivity|].
    destruct (settle_world id
                (sendPrompt_resume p i b result (with_inflight rest w)))
      as (-> & _).
    destruct (with_inflight_world rest w) as (Hcm & _).
    destruct (sendPrompt_resume_cases p i b result (with_inflight rest w))
      as [[_ ->]|[_ ->]]; simpl snd.
    + rewrite sendPrompt_success_cm, Hcm. split; reflexivity.
    + rewrite sendPrompt_failure_cm, Hcm. split; reflexivity.
  - destruct (ReplyCancel_cases id reply w) as [->|(rest & _ & ->)];
      [split; reflexivity|].
    destruct (settle_world id (cancel_resume reply (with_inflight rest w)))
      as (-> & _).
    rewrite cancel_resume_cm.
    destruct (with_inflight_world rest w) as (-> & _). split; reflexivity.
  - destruct (Refuse_cases id reason w) as [->|(k & rest & _ & ->)];
      [split; reflexivity|].
    destruct (refused_world id reason rest w) as (-> & _). split; reflexivity.
Qed.

Lemma run_timers_progress_le fuel deadline w :
  progress (cm w) <= progress (cm (run_timers fuel deadline w)).
Proof.
  apply (run_timers_stable (fun x => progress (cm w) <= progress (cm x)));
    [|lia].
  intros u x Hx. rewrite fire_progress.
  destruct (is_slow u && CreateState_eqb (state x) CREATE_LOADING); lia.
Qed.

(** X15: only a progress notification can lower [progress]: no method
    call and no reply writes [progress] or [message] -- a new attempt, a
    failure, a success, [cancel] and [cleanup] all leave them -- and
    passing time can only raise [progress]. *)
Theorem progress_is_never_reset (e : Event) (w : World) :
  is_notification e = false ->
  progress (cm w) <= progress (cm (step e w)) /\
  (is_elapse e = false ->
   progress (cm (step e w)) = progress (cm w) /\
   message (cm (step e w)) = message (cm w)).
Proof.
  intros Hn. split.
  - destruct (is_elapse e) eqn:He.
    + destruct e; try discriminate. simpl step. unfold elapse.
      destruct (with_now_frame (now w + Z.max 0 ms)
                  (run_timers (List.length (timers w))
                              (now w + Z.max 0 ms) w))
        as (-> & _).
      apply run_timers_progress_le.
    + destruct (step_progress_message e w Hn He) as (-> & _). lia.
  - intros He. apply step_progress_message; assumption.
Qed.

Lemma progress_is_never_reset_witness :
  let w := run_events [ PromptProgress "Building" 90 ] loading_world in
  let e := ReplyCreate 1%positive (created_at "/p") in
  is_notification e = false /\
  is_elapse e = false /\
  progress (cm w) = 90 /\
  state (step e w) = PROMPT /\
  progress (cm (step e w)) = progress (cm w) /\
  message (cm (step e w)) = message (cm w).
Proof.
  cbv zeta. split; [reflexivity|]. split; [reflexivity|].
  split; [vm_compute; reflexivity|]. split; [vm_compute; reflexivity|].
  apply (proj2 (progress_is_never_reset
                  (ReplyCreate 1%positive (created_at "/p"))
                  (run_events [ PromptProgress "Building" 90 ] loading_world)
                  eq_refl));
    reflexivity.
Defined.

(* ================================================================== *)
(** ** Subscription *)

(** X16: after [cleanup] the manager is deaf: a progress notification
    changes nothing at all; calling [listenForPromptProgress] again
    subscribes it anew, and the next notification is applied. *)
Theorem cleanup_stops_notifications (m : string) (p : Z) (w : World) :
  reachable w ->
  step (PromptProgress m p) (cleanup w) = cleanup w /\
  (let w' := step (PromptProgress m p)
                  (listenForPromptProgress (cleanup w)) in
   message (cm w') = Some m /\ progress (cm w') = p).
Proof.
  intros Hr. destruct (reachable_invariants w Hr) as (_ & Hl & _).
  split.
  - simpl step. unfold notify.
    destruct (cleanup_world w) as (_ & _ & _ & _ & _ & _ & _ & ->).
    unfold listener_inv in Hl.
    destruct (cleanupListener (cm w)); [reflexivity|].
    rewrite Hl by reflexivity. reflexivity.
  - cbv zeta. simpl step. unfold notify. apply deliver_sets.
    destruct (listenForPromptProgress_world (cleanup w))
      as (_ & _ & _ & _ & -> & _).
    apply Nat.lt_0_succ.
Qed.

Lemma cleanup_stops_notifications_witness :
  reachable loading_world /\
  step (PromptProgress "m" 42) (cleanup loading_world) = cleanup loading_world /\
  message (cm (step (PromptProgress "m" 42)
                    (listenForPromptProgress (cleanup loading_world))))
  = Some "m".
Proof.
  assert (Hr : reachable loading_world).
  { exists sample_owner, [ CallSendPrompt "x" [] false ]. reflexivity. }
  split; [exact Hr|].
  destruct (cleanup_stops_notifications "m" 42 loading_world Hr) as (A & B & _).
  split; assumption.
Defined.

(* ================================================================== *)
(** ** A refused [sendPrompt] *)

